(** * Style hooks, enable-item selectors and the navigation structure panel

    A shallow embedding of
    - [packages/block-editor/src/hooks/style.js] ([getCSSVariables],
      [addAttribute], [addSaveProps], [addEditProps]),
    - the enable-item selectors ([getActiveComplementaryArea],
      [isItemPinned]),
    - the [NavigationStructurePanel] component,
    together with the lodash helpers they call, and the properties proved
    about them. *)

From Stdlib Require Import ZArith String Ascii Bool Lia DecimalString.
From stdpp Require Import base list.

Set Warnings "-register-all".
Open Scope string_scope.

(* ===================================================================== *)
(** ** JavaScript values                                                  *)
(* ===================================================================== *)

Module JS.

(** The values the modelled code handles.  An object is the list of its own
    enumerable properties, with distinct keys, in the order they were added
    (JavaScript enumerates integer-like keys first; the properties proved
    read objects key by key, where that order does not show).  [VWrapper p]
    is the wrapper object that [Object(p)] builds around a boolean, number
    or string [p].  Numbers are the integers (those below 10^21 in absolute
    value print in plain decimal notation, which is what [string_of_Z]
    produces); strings are ASCII. *)
Inductive value : Type :=
| VUndefined
| VNull
| VBool (b : bool)
| VNum (n : Z)
| VStr (s : string)
| VObj (fields : list (string * value))
| VWrapper (p : value).

Definition obj : Type := list (string * value).

(** A call either returns or throws (every throw of the modelled code is a
    [TypeError]). *)
Inductive completion (A : Type) : Type :=
| Return (a : A)
| Throw.
Arguments Return {A} a.
Arguments Throw {A}.

Definition bind {A B} (m : completion A) (k : A -> completion B) : completion B :=
  match m with
  | Return a => k a
  | Throw => Throw
  end.

Notation "'let!' x ':=' m 'in' k" := (bind m (fun x => k))
  (at level 10, x name, m at level 100, k at level 200).

(** [ToBoolean]. *)
Definition truthy (v : value) : bool :=
  match v with
  | VUndefined | VNull => false
  | VBool b => b
  | VNum n => negb (n =? 0)%Z
  | VStr s => negb (s =? "")
  | VObj _ | VWrapper _ => true
  end.

(** [ToString] of a number. *)
Definition string_of_Z (n : Z) : string := NilZero.string_of_int (Z.to_int n).

(** [o[k]] on own properties. *)
Fixpoint own_prop (k : string) (o : obj) : option value :=
  match o with
  | [] => None
  | (k', v) :: o' => if k' =? k then Some v else own_prop k o'
  end.

(** [o[k] = v]: an existing property keeps its place, a new one goes last. *)
Fixpoint assign (o : obj) (k : string) (v : value) : obj :=
  match o with
  | [] => [(k, v)]
  | (k', v') :: o' => if k' =? k then (k, v) :: o' else (k', v') :: assign o' k v
  end.

Definition keys (o : obj) : list string := map fst o.

(** Assigning the pairs of [b] one after the other, from [a] on. *)
Definition assign_all (a b : obj) : obj :=
  fold_left (fun acc kv => assign acc (fst kv) (snd kv)) b a.

(** [{ ...a, ...b }]. *)
Definition spread (a b : obj) : obj := assign_all a b.

(** The characters of a string as index properties ["0"], ["1"], ... *)
Fixpoint index_entries (i : nat) (s : string) : obj :=
  match s with
  | EmptyString => []
  | String c s' =>
      (string_of_Z (Z.of_nat i), VStr (String c EmptyString)) :: index_entries (S i) s'
  end.

(** The own enumerable properties of a value, as object spread and
    [Object.keys] see them. *)
Definition own_entries (v : value) : obj :=
  match v with
  | VObj fields => fields
  | VStr s | VWrapper (VStr s) => index_entries 0 s
  | _ => []
  end.

(** [v[k]] for a key that no prototype has ([style] is the one the hooks
    read): the own property, or [undefined]. *)
Definition read (v : value) (k : string) : value :=
  match own_prop k (own_entries v) with
  | Some x => x
  | None => VUndefined
  end.

Definition mem (k : string) (l : list string) : bool := existsb (String.eqb k) l.

(** The function-valued members of [Object.prototype]; its one other member
    is the accessor [__proto__]. *)
Definition object_methods : list string :=
  ["constructor"; "hasOwnProperty"; "isPrototypeOf"; "propertyIsEnumerable";
   "toLocaleString"; "toString"; "valueOf";
   "__defineGetter__"; "__defineSetter__"; "__lookupGetter__"; "__lookupSetter__"].

(** [v === true]. *)
Definition is_true (v : value) : bool :=
  match v with
  | VBool true => true
  | _ => false
  end.

(** Induction on values, with the hypothesis for every field of an object. *)
Fixpoint value_fields_ind (P : value -> Prop)
  (Hundefined : P VUndefined) (Hnull : P VNull)
  (Hbool : forall b, P (VBool b)) (Hnum : forall n, P (VNum n))
  (Hstr : forall s, P (VStr s))
  (Hobj : forall fields, Forall (fun kv => P (snd kv)) fields -> P (VObj fields))
  (Hwrapper : forall p, P p -> P (VWrapper p))
  (v : value) {struct v} : P v :=
  match v with
  | VUndefined => Hundefined
  | VNull => Hnull
  | VBool b => Hbool b
  | VNum n => Hnum n
  | VStr s => Hstr s
  | VObj fields =>
      Hobj fields
        ((fix all (l : list (string * value)) : Forall (fun kv => P (snd kv)) l :=
            match l with
            | [] => @List.Forall_nil _ (fun kv => P (snd kv))
            | kv :: l' =>
                @List.Forall_cons _ (fun kv => P (snd kv)) kv l'
                  (value_fields_ind P Hundefined Hnull Hbool Hnum Hstr Hobj Hwrapper (snd kv))
                  (all l')
            end) fields)
  | VWrapper p =>
      Hwrapper p (value_fields_ind P Hundefined Hnull Hbool Hnum Hstr Hobj Hwrapper p)
  end.

End JS.

(* ===================================================================== *)
(** ** lodash                                                             *)
(* ===================================================================== *)

Module Lodash.
Import JS.

Definition identity (v : value) : value := v.

(** [isObject]: objects and functions, not [null]. *)
Definition isObject (v : value) : bool :=
  match v with
  | VObj _ | VWrapper _ => true
  | _ => false
  end.

(** [entries] ([toPairs]): the own enumerable string-keyed pairs. *)
Definition entries (v : value) : obj := own_entries v.

(** [mapKeys(object, (_, key) => f(key))]: the iteratees of the modelled code
    ignore the value. *)
Definition map_key (f : string -> string) (kv : string * value) : string * value :=
  (f (fst kv), snd kv).

Definition mapKeys (o : obj) (f : string -> string) : obj :=
  assign_all [] (map (map_key f) o).

(** *** [get]

    [get] reads [object[key]] step by step, and a step finds inherited
    members too.  What a step can find: a modelled value; a function
    inherited from [Object.prototype]; [Object.prototype] itself (read as
    [__proto__]); or some other host value ([Host]: a member of a primitive's
    prototype or of a built-in function, or [undefined] where there is none),
    which is never a boolean. *)
Inductive found : Type :=
| Value (v : value)
| Method
| ObjectPrototype
| Host.

(** A walk returns, throws, or leaves what is modelled: the members of a
    [Host] value are the host's. *)
Inductive outcome (A : Type) : Type :=
| Returns (a : A)
| Throws
| Unfollowed.
Arguments Returns {A} a.
Arguments Throws {A}.
Arguments Unfollowed {A}.

(** [caller] and [arguments] are accessors of [Function.prototype] whose
    getter throws a [TypeError] (the functions of [Object.prototype] have no
    such property of their own). *)
Definition restricted : list string := ["caller"; "arguments"].

(** [object[key]]. *)
Definition member (object : found) (key : string) : outcome found :=
  match object with
  | Value VUndefined | Value VNull => Throws
  | Value (VObj o) =>
      match own_prop key o with
      | Some x => Returns (Value x)
      | None =>
          if mem key object_methods then Returns Method
          else if key =? "__proto__" then Returns ObjectPrototype
          else Returns (Value VUndefined)
      end
  | Value v =>
      match own_prop key (own_entries v) with
      | Some x => Returns (Value x)
      | None => Returns Host
      end
  | Method => if mem key restricted then Throws else Returns Host
  | ObjectPrototype =>
      if mem key object_methods then Returns Method
      else if key =? "__proto__" then Returns (Value VNull)
      else Returns (Value VUndefined)
  | Host => Unfollowed
  end.

(** [baseGet(object, path)] with an array path: the loop
    [while (object != null && index < length) object = object[path[index++]]],
    which reads [undefined] when it stops before the end of the path. *)
Fixpoint baseGet_loop (object : found) (path : list string) : outcome found :=
  match path with
  | [] => Returns object
  | k :: path' =>
      match object with
      | Value VUndefined | Value VNull => Returns (Value VUndefined)
      | _ =>
          match member object k with
          | Returns next => baseGet_loop next path'
          | Throws => Throws
          | Unfollowed => Unfollowed
          end
      end
  end.

(** [return (index && index == length) ? object : undefined]: an empty path
    reads [undefined]. *)
Definition baseGet (object : value) (path : list string) : outcome found :=
  match path with
  | [] => Returns (Value VUndefined)
  | _ => baseGet_loop (Value object) path
  end.

(** [get(object, path, defaultValue)]; [defaultValue] is [None] for a call
    with two arguments.  Whether a [Host] value is [undefined] is the
    host's, so a default cannot be decided there. *)
Definition get (object : value) (path : list string) (defaultValue : option value)
  : outcome found :=
  match baseGet object path with
  | Returns (Value VUndefined) =>
      Returns (Value (match defaultValue with Some d => d | None => VUndefined end))
  | Returns Host =>
      match defaultValue with
      | Some _ => Unfollowed
      | None => Returns Host
      end
  | result => result
  end.

(** *** [kebabCase]

    [kebabCase(s)] joins the lower-cased [words] of [s] with ["-"], after
    [deburr] (the identity on ASCII) and the removal of apostrophes.  The
    model follows lodash's regular expressions on ASCII strings, where the
    character classes are: lower [a-z], upper [A-Z], digit [0-9] and break
    (every other ASCII character). *)

Definition between (lo hi c : ascii) : bool :=
  (nat_of_ascii lo <=? nat_of_ascii c)%nat && (nat_of_ascii c <=? nat_of_ascii hi)%nat.

Definition is_lower (c : ascii) : bool := between "a" "z" c.
Definition is_upper (c : ascii) : bool := between "A" "Z" c.
Definition is_digit (c : ascii) : bool := between "0" "9" c.
Definition is_letter (c : ascii) : bool := is_lower c || is_upper c.
Definition is_alnum (c : ascii) : bool := is_letter c || is_digit c.
Definition is_break (c : ascii) : bool := negb (is_alnum c).

Definition toLower (c : ascii) : ascii :=
  if is_upper c then ascii_of_nat (nat_of_ascii c + 32) else c.

Fixpoint toLowerCase (s : string) : string :=
  match s with
  | EmptyString => EmptyString
  | String c s' => String (toLower c) (toLowerCase s')
  end.

(** The longest prefix whose characters satisfy [p], and the rest. *)
Fixpoint span (p : ascii -> bool) (s : string) : string * string :=
  match s with
  | EmptyString => (EmptyString, EmptyString)
  | String c s' =>
      if p c
      then let '(w, r) := span p s' in (String c w, r)
      else (EmptyString, s)
  end.

Definition head_is (p : ascii -> bool) (s : string) : bool :=
  match s with
  | EmptyString => false
  | String c _ => p c
  end.

Definition at_end (s : string) : bool :=
  match s with
  | EmptyString => true
  | _ => false
  end.

Definition nonempty (s : string) : bool := negb (at_end s).

(** [rsUpper?]: one upper-case character when there is one. *)
Definition opt_upper (s : string) : string * string :=
  match s with
  | String c s' => if is_upper c then (String c EmptyString, s') else (EmptyString, s)
  | EmptyString => (EmptyString, EmptyString)
  end.

(** All but the last character, and the last character put back in front of
    [r]: what one step of backtracking of a greedy [+] gives up. *)
Fixpoint give_back (w r : string) : string * string :=
  match w with
  | EmptyString => (EmptyString, r)
  | String c EmptyString => (EmptyString, String c r)
  | String c w' => let '(w1, r1) := give_back w' r in (String c w1, r1)
  end.

(** Alternative 1: [rsUpper? rsLower+ (?= rsBreak | rsUpper | $)].  Giving up
    characters of the lower-case run puts a lower-case character under the
    lookahead, which then fails, so only the whole run is tried. *)
Definition word_lower_ahead (s : string) : option (string * string) :=
  let '(u, r0) := opt_upper s in
  let '(l, r) := span is_lower r0 in
  if nonempty l && (at_end r || head_is is_break r || head_is is_upper r)
  then Some (u ++ l, r) else None.

(** Alternative 2: [rsMiscUpper+ (?= rsBreak | rsUpper rsMiscLower | $)].
    After the whole upper-case run the lookahead holds at a break or at the
    end; after giving up one character it holds when a lower-case character
    follows the run; giving up more puts two upper-case characters under it. *)
Definition word_upper_ahead (s : string) : option (string * string) :=
  let '(u, r) := span is_upper s in
  if nonempty u && (at_end r || head_is is_break r) then Some (u, r)
  else
    let '(u1, r1) := give_back u r in
    if nonempty u1 && head_is is_lower r then Some (u1, r1) else None.

(** Alternative 3: [rsUpper? rsMiscLower+]. *)
Definition word_lower (s : string) : option (string * string) :=
  let '(u, r0) := opt_upper s in
  let '(l, r) := span is_lower r0 in
  if nonempty l then Some (u ++ l, r) else None.

(** Alternative 4: [rsUpper+]. *)
Definition word_upper (s : string) : option (string * string) :=
  let '(u, r) := span is_upper s in
  if nonempty u then Some (u, r) else None.

Fixpoint last_char (s : string) : option ascii :=
  match s with
  | EmptyString => None
  | String c EmptyString => Some c
  | String _ s' => last_char s'
  end.

(** The ordinal suffix that may follow a number whose last digit is [d]:
    [1ST | 2ND | 3RD | (?![123])\dTH]. *)
Definition ordinal_suffix (d : ascii) : string :=
  if (d =? "1")%char then "ST"
  else if (d =? "2")%char then "ND"
  else if (d =? "3")%char then "RD"
  else "TH".

(** Alternatives 5 and 6: [\d*(?:1ST|...)(?=\b|[a-z_])] and its lower-case
    twin with [(?=\b|[A-Z_])].  After the suffix, [\b] holds at the end and
    before a character outside [A-Za-z0-9_]; [blocked] says which letters and
    digits make the lookahead fail. *)
Definition word_ordinal (lower : bool) (s : string) : option (string * string) :=
  let '(d, r) := span is_digit s in
  match last_char d with
  | None => None
  | Some x =>
      let sfx := if lower then toLowerCase (ordinal_suffix x) else ordinal_suffix x in
      let blocked c := is_digit c || (if lower then is_lower c else is_upper c) in
      if String.prefix sfx r && negb (head_is blocked (String.substring 2 (String.length r - 2) r))
      then Some (d ++ sfx, String.substring 2 (String.length r - 2) r)
      else None
  end.

(** Alternative 7: [\d+]. *)
Definition word_digits (s : string) : option (string * string) :=
  let '(d, r) := span is_digit s in
  if nonempty d then Some (d, r) else None.

Fixpoint first_match (alts : list (string -> option (string * string))) (s : string)
  : option (string * string) :=
  match alts with
  | [] => None
  | alt :: alts' =>
      match alt s with
      | Some m => Some m
      | None => first_match alts' s
      end
  end.

(** [reUnicodeWord] at the head of [s]: the first alternative that matches
    (the emoji alternative never does on ASCII). *)
Definition reUnicodeWord (s : string) : option (string * string) :=
  first_match
    [word_lower_ahead; word_upper_ahead; word_lower; word_upper;
     word_ordinal false; word_ordinal true; word_digits] s.

(** [string.match(re)] with the [g] flag: the matches from left to right,
    moving one character on where none starts.  A match is never empty, so
    [String.length s] steps are enough ([matches_fuel] below). *)
Fixpoint matches_from (re : string -> option (string * string)) (fuel : nat) (s : string)
  : list string :=
  match fuel with
  | O => []
  | S fuel' =>
      match s with
      | EmptyString => []
      | String _ rest =>
          match re s with
          | Some (w, r) => w :: matches_from re fuel' r
          | None => matches_from re fuel' rest
          end
      end
  end.

(** A regular expression whose matches are never empty leaves a shorter
    string after each. *)
Definition consuming (re : string -> option (string * string)) : Prop :=
  forall s w r, re s = Some (w, r) -> String.length r < String.length s.

Definition unicodeWords (s : string) : list string :=
  matches_from reUnicodeWord (String.length s) s.

(** [reAsciiWord = /[^\x00-\x2f\x3a-\x40\x5b-\x60\x7b-\x7f]+/g]. *)
Definition is_ascii_word_char (c : ascii) : bool :=
  is_alnum c || (128 <=? nat_of_ascii c)%nat.

Definition reAsciiWord (s : string) : option (string * string) :=
  let '(w, r) := span is_ascii_word_char s in
  if nonempty w then Some (w, r) else None.

Definition asciiWords (s : string) : list string :=
  matches_from reAsciiWord (String.length s) s.

(** [reHasUnicodeWord =
     /[a-z][A-Z]|[A-Z]{2}[a-z]|[0-9][a-zA-Z]|[a-zA-Z][0-9]|[^a-zA-Z0-9 ]/]. *)
Fixpoint hasUnicodeWord (s : string) : bool :=
  match s with
  | EmptyString => false
  | String c r =>
      (is_lower c && head_is is_upper r)
      || (is_upper c && head_is is_upper r
          && head_is is_lower (String.substring 1 (String.length r - 1) r))
      || (is_digit c && head_is is_letter r)
      || (is_letter c && head_is is_digit r)
      || negb (is_alnum c || (c =? " ")%char)
      || hasUnicodeWord r
  end.

Definition words (s : string) : list string :=
  if hasUnicodeWord s then unicodeWords s else asciiWords s.

(** [string.replace(reApos, '')] on ASCII: the apostrophes go. *)
Fixpoint removeApos (s : string) : string :=
  match s with
  | EmptyString => EmptyString
  | String c s' => if (c =? "'")%char then removeApos s' else String c (removeApos s')
  end.

(** [arrayReduce(words, (result, word, index) =>
       result + (index ? '-' : '') + word.toLowerCase(), '')]. *)
Fixpoint compound (index : nat) (result : string) (ws : list string) : string :=
  match ws with
  | [] => result
  | word :: ws' =>
      compound (S index)
        (result ++ (if (index =? 0)%nat then "" else "-") ++ toLowerCase word) ws'
  end.

Definition kebabCase (s : string) : string :=
  compound 0 "" (words (removeApos s)).

End Lodash.

(* ===================================================================== *)
(** ** hooks/style.js                                                     *)
(* ===================================================================== *)

Module Style.
Import JS Lodash.

Definition prefix : string := "--wp".
Definition token : string := "--".

(** [ToString] of a leaf, for [value + 'px'].  Leaves are primitives; an
    object would go through [ToPrimitive] first. *)
Definition ToString (v : value) : string :=
  match v with
  | VUndefined => "undefined"
  | VNull => "null"
  | VBool true => "true"
  | VBool false => "false"
  | VNum n => string_of_Z n
  | VStr s => s
  | VWrapper (VBool true) => "true"
  | VWrapper (VBool false) => "false"
  | VWrapper (VNum n) => string_of_Z n
  | VWrapper (VStr s) => s
  | VObj _ | VWrapper _ => "[object Object]"
  end.

(** [fontSize: ( value ) => ( value ? value + 'px' : value )]. *)
Definition fontSize (val : value) : value :=
  if truthy val then VStr (ToString val ++ "px") else val.

(** [Object(value)], the function found under ["constructor"]. *)
Definition Object (v : value) : value :=
  match v with
  | VUndefined | VNull => VObj []
  | VBool _ | VNum _ | VStr _ => VWrapper v
  | VObj _ | VWrapper _ => v
  end.

(** The members of [Object.prototype] that, called as a plain function
    ([this] is [undefined] in module code), throw a [TypeError] at
    [ToObject(this)]; ["__proto__"] reads as [Object.prototype] itself, which
    is truthy and not callable. *)
Definition throwing_members : list string :=
  ["hasOwnProperty"; "propertyIsEnumerable"; "toLocaleString"; "valueOf";
   "__defineGetter__"; "__defineSetter__"; "__lookupGetter__"; "__lookupSetter__";
   "__proto__"].

Definition inherited_members : list string :=
  "constructor" :: "toString" :: "isPrototypeOf" :: throwing_members.

(** [( valueFormatters[ key ] || identity )( value )].  [valueFormatters] is an
    object literal with the one own property [fontSize]; any other key is
    looked up on [Object.prototype]: [constructor] finds [Object];
    [toString], called with [this] undefined, answers
    ["[object Undefined]"]; [isPrototypeOf] answers [false] for a value that
    is not an object before it looks at [this]; the other members throw; a
    key that finds nothing gets [identity]. *)
Definition valueFormatter (key : string) (val : value) : completion value :=
  if key =? "fontSize" then Return (fontSize val)
  else if key =? "constructor" then Return (Object val)
  else if key =? "toString" then Return (VStr "[object Undefined]")
  else if key =? "isPrototypeOf" then
    (if isObject val then Throw else Return (VBool false))
  else if mem key throwing_members then Throw
  else Return (identity val).

(** The body of [entries( config ).forEach( ... )], with [recur] for the
    recursive call. *)
Definition forEach_entry (recur : value -> completion obj)
  : obj -> obj -> completion obj :=
  fix each (es : obj) (result : obj) {struct es} : completion obj :=
    match es with
    | [] => Return result
    | (key, val) :: es' =>
        if negb (isObject val) then
          let! formatted := valueFormatter key val in
          each es' (assign result (kebabCase key) formatted)
        else
          let! nested := recur val in
          each es'
            (spread result
               (mapKeys nested (fun subkey => kebabCase key ++ token ++ subkey)))
    end.

(** [getNestedCSSVariables].  The entries of a plain object are its fields;
    those of any other value are index characters, which are leaves, so the
    recursive call is never reached there ([getNestedCSSVariables_eq]). *)
Fixpoint getNestedCSSVariables (config : value) : completion obj :=
  match config with
  | VObj fields => forEach_entry getNestedCSSVariables fields []
  | _ => forEach_entry (fun _ => Return []) (entries config) []
  end.

(** [getCSSVariables( styles = {} )]. *)
Definition getCSSVariables (styles : value) : completion obj :=
  let styles := match styles with VUndefined => VObj [] | _ => styles end in
  let! nested := getNestedCSSVariables styles in
  Return (mapKeys nested (fun key => prefix ++ token ++ key)).

(** *** The props objects and the block settings

    A props object is mutated in place and handed on, so props objects live
    in a store and are passed by location; a new object is allocated at the
    end of the store.  The values held in their fields are read and copied,
    never mutated, and are kept as trees. *)
Abbreviation loc := nat.
Abbreviation store := (list obj).

Definition alloc (h : store) (o : obj) : loc * store := (List.length h, (h ++ [o])%list).

(** A [getEditWrapperProps] function: from the attributes to a props
    object. *)
Definition wrapperProps : Type := value -> store -> completion (loc * store).

(** Block settings (a block type): the [supports] declaration, the attribute
    declarations by name, the edit wrapper props function when there is one,
    and the remaining properties. *)
Record settings : Type := {
  supports : value;
  attributes : obj;
  getEditWrapperProps : option wrapperProps;
  others : obj
}.

Definition set_attributes (s : settings) (a : obj) : settings :=
  {| supports := supports s; attributes := a;
     getEditWrapperProps := getEditWrapperProps s; others := others s |}.

Definition set_getEditWrapperProps (s : settings) (f : wrapperProps) : settings :=
  {| supports := supports s; attributes := attributes s;
     getEditWrapperProps := Some f; others := others s |}.

(** [const { style } = attributes]: destructuring [null] or [undefined]
    throws. *)
Definition destructure (attributes : value) (k : string) : completion value :=
  match attributes with
  | VUndefined | VNull => Throw
  | _ => Return (read attributes k)
  end.

(** The style object that [addSaveProps] assigns: the generated variables,
    then the entries of the style the props came with. *)
Definition merged_style (variables o : obj) : obj :=
  spread variables (own_entries (read (VObj o) "style")).

Section Hooks.

(** The support keys come from [./color], [./line-height] and [./font-size],
    and [hasBlockSupport] from [@wordpress/blocks]; none is among the sources,
    so they are parameters.  [hasBlockSupport( blockType, key )] reads the
    block type's [supports] declaration and is taken as a function of it. *)
Variables COLOR_SUPPORT_KEY LINE_HEIGHT_SUPPORT_KEY FONT_SIZE_SUPPORT_KEY : string.
Variable hasBlockSupport : value -> string -> bool.

Definition styleSupportKeys : list string :=
  [COLOR_SUPPORT_KEY; LINE_HEIGHT_SUPPORT_KEY; FONT_SIZE_SUPPORT_KEY].

Definition typographySupportKeys : list string :=
  [LINE_HEIGHT_SUPPORT_KEY; FONT_SIZE_SUPPORT_KEY].

Definition hasStyleSupport (blockType : settings) : bool :=
  existsb (fun key => hasBlockSupport (supports blockType) key) styleSupportKeys.

(** [Object.assign( target, source )]. *)
Definition Object_assign (target source : obj) : obj := spread target source.

Definition addAttribute (settings : settings) : Style.settings :=
  if negb (hasStyleSupport settings) then settings
  else if negb (truthy (read (VObj (attributes settings)) "style")) then
    set_attributes settings
      (Object_assign (attributes settings) [("style", VObj [("type", VStr "object")])])
  else settings.

Definition addSaveProps (props : loc) (blockType : settings) (attributes : value)
  (h : store) : completion (loc * store) :=
  if negb (hasStyleSupport blockType) then Return (props, h)
  else
    let! style := destructure attributes "style" in
    let! variables := getCSSVariables style in
    match h !! props with
    | Some o =>
        Return (props, <[props := assign o "style" (VObj (merged_style variables o))]> h)
    | None => Throw (* a location outside the store, which no reference is *)
    end.

(** The function installed as [settings.getEditWrapperProps].  It closes over
    [settings], which by the time of a call carries the installed function
    itself; [addSaveProps] reads only the [supports] of its block type, which
    the installation leaves as they are. *)
Definition editWrapperProps (settings : settings) (existingGetEditWrapperProps : option wrapperProps)
  : wrapperProps :=
  fun attributes h =>
    let! ph :=
      match existingGetEditWrapperProps with
      | Some existing => existing attributes h
      | None => Return (alloc h [])
      end in
    addSaveProps (fst ph) settings attributes (snd ph).

Definition addEditProps (settings : settings) : Style.settings :=
  if negb (hasStyleSupport settings) then settings
  else
    let existingGetEditWrapperProps := getEditWrapperProps settings in
    set_getEditWrapperProps settings
      (editWrapperProps settings existingGetEditWrapperProps).

End Hooks.

End Style.

(* ===================================================================== *)
(** ** The enable-item selectors                                          *)
(* ===================================================================== *)

Module EnableItems.
Import JS Lodash.

Record enableItemsState : Type := {
  singleEnableItems : value;
  multipleEnableItems : value
}.

Record state : Type := {
  enableItems : enableItemsState
}.

Definition getSingleEnableItem (state : state) (itemType scope : string)
  : outcome found :=
  get (singleEnableItems (enableItems state)) [itemType; scope] (Some VNull).

Definition getActiveComplementaryArea (state : EnableItems.state) (scope : string)
  : outcome found :=
  getSingleEnableItem state "complementaryArea" scope.

(** [x === true]: no inherited member and no host value is a boolean. *)
Definition strictly_true (x : found) : bool :=
  match x with
  | Value v => is_true v
  | _ => false
  end.

Definition isMultipleEnabledItemEnabled (state : state) (itemType scope item : string)
  : outcome bool :=
  match get (multipleEnableItems (enableItems state)) [itemType; scope; item] None with
  | Returns x => Returns (strictly_true x)
  | Throws => Throws
  | Unfollowed => Unfollowed
  end.

Definition isItemPinned (state : EnableItems.state) (scope item : string) : outcome bool :=
  isMultipleEnabledItemEnabled state "pinnedItems" scope item.

(** The value stored under a path of own properties, when every step of the
    path is there. *)
Fixpoint stored_at (v : value) (path : list string) : option value :=
  match path with
  | [] => Some v
  | k :: path' =>
      match own_prop k (own_entries v) with
      | Some x => stored_at x path'
      | None => None
      end
  end.

(** A plain object, [null] or [undefined]: what a state built from object
    literals holds where a path goes on. *)
Definition is_plain (v : value) : bool :=
  match v with
  | VObj _ | VNull | VUndefined => true
  | _ => false
  end.

(** A walk that stays within the state: every key of [path] is read from a
    plain object, or the walk has stopped at [null] or [undefined] before;
    a key before the last is an own property or is absent and no name of a
    member of [Object.prototype], so that no step before the last leaves
    the state for a prototype. *)
Fixpoint plain_walk (v : value) (path : list string) : bool :=
  match path with
  | [] => true
  | [_] => is_plain v
  | k :: path' =>
      match v with
      | VNull | VUndefined => true
      | VObj o =>
          match own_prop k o with
          | Some x => plain_walk x path'
          | None => negb (mem k object_methods || (k =? "__proto__"))
          end
      | _ => false
      end
  end.

(** What [=== true] answers for what is stored under a path. *)
Definition stored_true (v : value) (path : list string) : bool :=
  match stored_at v path with
  | Some (VBool true) => true
  | _ => false
  end.

End EnableItems.

(* ===================================================================== *)
(** ** The navigation structure panel                                     *)
(* ===================================================================== *)

Module NavigationPanel.

Section Component.

(** Block descriptors, client ids and the store's [selectBlock] action are
    the host's. *)
Variables block clientId action : Type.

(** What the component returns: the elements it creates; [Nothing] is a
    [false] child, which renders nothing. *)
Inductive element : Type :=
| Nothing
| Panel (children : list element)
| PanelBody (title : string) (children : list element)
| Fragment (children : list element)
| BlockNavigationToolbar
| BlockNavigationList (blocks : list block) (selectedBlockClientId : option clientId)
    (selectBlock : action) (showNestedBlocks showAppender : bool).

(** [__], the translation function of [@wordpress/i18n]. *)
Variable translate : string -> string.

(** [selectedBlockClientIds] is what [useSelect] reads from the store
    ([getSelectedBlockClientIds()]), [selectBlock] what [useDispatch] gives. *)
Definition NavigationStructurePanel (selectedBlockClientIds : list clientId)
  (selectBlock : action) (blocks : list block) : element :=
  Panel
    [PanelBody (translate "Navigation structure")
       [if negb (List.length blocks =? 0)%nat then
          Fragment
            [BlockNavigationToolbar;
             BlockNavigationList blocks (head selectedBlockClientIds) selectBlock true true]
        else Nothing]].

End Component.

Arguments Nothing {block clientId action}.
Arguments Panel {block clientId action} children.
Arguments PanelBody {block clientId action} title children.
Arguments Fragment {block clientId action} children.
Arguments BlockNavigationToolbar {block clientId action}.
Arguments BlockNavigationList {block clientId action} blocks selectedBlockClientId
  selectBlock showNestedBlocks showAppender.
Arguments NavigationStructurePanel {block clientId action} translate
  selectedBlockClientIds selectBlock blocks.

End NavigationPanel.

(* ===================================================================== *)
(** ** The leaves of a configuration, in the order of the walk            *)
(* ===================================================================== *)

Module Leaves.
Import JS Lodash Style.

(** A leaf of the walk: the name the walk generates for it (without the root
    prefix), the key it is stored under in its parent, and its value. *)
Abbreviation leaf := (string * (string * value))%type.

Definition entry_leaves (recur : value -> list leaf) : obj -> list leaf :=
  fix go (es : obj) : list leaf :=
    match es with
    | [] => []
    | (key, val) :: es' =>
        ((if isObject val
          then map (fun l : leaf => ((kebabCase key ++ token ++ fst l)%string, snd l))
                 (recur val)
          else [(kebabCase key, (key, val))]) ++ go es')%list
    end.

Fixpoint flat_leaves (config : value) : list leaf :=
  match config with
  | VObj fields => entry_leaves flat_leaves fields
  | _ => entry_leaves (fun _ => []) (entries config)
  end.

(** The leaves of [getCSSVariables( styles )], under their full names. *)
Definition css_leaves (styles : value) : list leaf :=
  map (fun l : leaf => ((prefix ++ token ++ fst l)%string, snd l))
    (flat_leaves (match styles with VUndefined => VObj [] | _ => styles end)).

(** A leaf [v] of a configuration of plain objects, reached by the keys
    [path]. *)
Inductive leaf_at : value -> list string -> value -> Prop :=
| leaf_here (fields : obj) (k : string) (v : value) :
    In (k, v) fields -> isObject v = false -> leaf_at (VObj fields) [k] v
| leaf_below (fields sub : obj) (k : string) (path : list string) (v : value) :
    In (k, VObj sub) fields -> leaf_at (VObj sub) path v ->
    leaf_at (VObj fields) (k :: path) v.

(** The kebab-cased keys of a path joined by [token]. *)
Fixpoint join_names (path : list string) : string :=
  match path with
  | [] => EmptyString
  | [k] => kebabCase k
  | k :: path' => (kebabCase k ++ token ++ join_names path')%string
  end.

(** The key of the leaf itself: the last key of its path. *)
Definition leaf_key (path : list string) : string := List.last path EmptyString.

(** What a leaf is recorded as when its formatter returns. *)
Definition formatted (l : leaf) : string * value :=
  (fst l,
   match valueFormatter (fst (snd l)) (snd (snd l)) with
   | Return v => v
   | Throw => VUndefined
   end).

(** The formatter of the leaf throws. *)
Definition throws_on (l : leaf) : bool :=
  match valueFormatter (fst (snd l)) (snd (snd l)) with
  | Return _ => false
  | Throw => true
  end.

(** [nested] holds the leaves [ls], a later leaf of the same name hiding an
    earlier one. *)
Definition holds (nested : obj) (ls : list leaf) : Prop :=
  List.NoDup (keys nested) /\
  forall k, own_prop k nested = own_prop k (rev (map formatted ls)).

End Leaves.

(* ===================================================================== *)
(** ** Dash case                                                          *)
(* ===================================================================== *)

Module DashCase.
Import JS Lodash.

(** A key is in dash case when it is made of words of lower-case letters
    joined by single dashes.  [in_word] says that the character before was a
    letter. *)
Fixpoint dash_words (in_word : bool) (s : string) : bool :=
  match s with
  | EmptyString => in_word
  | String c s' =>
      if is_lower c then dash_words true s'
      else if (c =? "-")%char then in_word && dash_words false s'
      else false
  end.

Definition is_dash_case (s : string) : bool := dash_words false s.

End DashCase.

Module FlatConfig.
Import JS Lodash Style DashCase.

(** Every key is in dash case and every value is a leaf. *)
Definition flat_dash_case (c : obj) : bool :=
  forallb (fun kv => is_dash_case (fst kv) && negb (isObject (snd kv))) c.

(** The entries under their keys with the root prefix, and back. *)
Definition prefixed (c : obj) : obj :=
  map (fun kv => (("--wp--" ++ fst kv)%string, snd kv)) c.

Definition unprefixed (r : obj) : obj :=
  map (fun kv => (String.substring 6 (String.length (fst kv) - 6) (fst kv), snd kv)) r.

(** What a leaf under a dash-case key is recorded as. *)
Definition recorded (kv : string * value) : string * value :=
  (fst kv, if fst kv =? "constructor" then Object (snd kv) else snd kv).

End FlatConfig.

(* ===================================================================== *)
(** ** Example blocks and states                                          *)
(* ===================================================================== *)

(** The filters at the support keys of the block editor, with
    [hasBlockSupport] reading the flag under the key. *)
Module HookExamples.
Import JS Lodash Style.

Definition hasBlockSupport (supports : value) (key : string) : bool :=
  truthy (read supports key).

Definition color_block (existing : option wrapperProps) : settings :=
  {| supports := VObj [("__experimentalColor", VBool true)];
     attributes := [("content", VObj [("type", VStr "string")])];
     getEditWrapperProps := existing;
     others := [("name", VStr "core/paragraph")] |}.

Definition plain_block : settings :=
  {| supports := VObj [];
     attributes := [("content", VObj [("type", VStr "string")])];
     getEditWrapperProps := None;
     others := [("name", VStr "core/html")] |}.

(** A wrapper props function that returns a new props object. *)
Definition existing_props : wrapperProps :=
  fun _ h =>
    Return (alloc h [("className", VStr "wide");
                     ("style", VObj [("--wp--color--text", VStr "blue")])]).

Definition red_text : value :=
  VObj [("style", VObj [("color", VObj [("text", VStr "red"); ("background", VStr "white")])])].

Definition red_variables : obj :=
  [("--wp--color--text", VStr "red"); ("--wp--color--background", VStr "white")].

Definition caller_props : obj :=
  [("className", VStr "wide"); ("style", VObj [("--wp--color--text", VStr "blue")])].

End HookExamples.

Module EnableItemsExamples.
Import JS EnableItems.

Definition pinned_state : state :=
  {| enableItems :=
       {| singleEnableItems := VObj [];
          multipleEnableItems :=
            VObj [("pinnedItems",
                   VObj [("core/edit-post",
                          VObj [("plugin-a", VBool true); ("plugin-b", VNum 1)])])] |} |}.

(** A state with the block inspector open in the post editor. *)
Definition area_state : state :=
  {| enableItems :=
       {| singleEnableItems :=
            VObj [("complementaryArea",
                   VObj [("core/edit-post", VStr "edit-post/block")])];
          multipleEnableItems := VObj [] |} |}.

End EnableItemsExamples.

(* ===================================================================== *)
(** ** Facts about objects                                                *)
(* ===================================================================== *)

Module ObjFacts.
Import JS.

Lemma own_prop_assign (o : obj) (k k' : string) (v : value) :
  own_prop k (assign o k' v) = if k' =? k then Some v else own_prop k o.
Proof.
  induction o as [|[k0 v0] o IH]; simpl.
  - reflexivity.
  - destruct (String.eqb_spec k0 k') as [->|Hne]; simpl.
    + destruct (k' =? k); reflexivity.
    + rewrite IH. destruct (String.eqb_spec k0 k) as [->|Hne'].
      * destruct (String.eqb_spec k' k) as [->|_]; [congruence | reflexivity].
      * reflexivity.
Qed.

Lemma own_prop_app (k : string) (a b : obj) :
  own_prop k (a ++ b)%list =
  match own_prop k a with Some v => Some v | None => own_prop k b end.
Proof.
  induction a as [|[k0 v0] a IH]; simpl; [reflexivity|].
  destruct (k0 =? k); [reflexivity | exact IH].
Qed.

(** After a run of assignments a key holds what was assigned to it last, or
    what it held before. *)
Lemma own_prop_assign_all (k : string) (b a : obj) :
  own_prop k (assign_all a b) =
  match own_prop k (rev b) with Some v => Some v | None => own_prop k a end.
Proof.
  revert a. induction b as [|[k0 v0] b IH]; intros a; simpl.
  - reflexivity.
  - unfold assign_all in *. simpl. rewrite IH, own_prop_app, own_prop_assign. simpl.
    destruct (own_prop k (rev b)); [reflexivity|].
    destruct (k0 =? k); reflexivity.
Qed.

Lemma own_prop_None (k : string) (o : obj) :
  own_prop k o = None <-> ~ In k (keys o).
Proof.
  induction o as [|[k0 v0] o IH]; simpl.
  - tauto.
  - destruct (String.eqb_spec k0 k) as [->|Hne].
    + split; [discriminate | intros H; exfalso; apply H; now left].
    + rewrite IH. split; [intros H [?|?]; [congruence | tauto] | tauto].
Qed.

Lemma own_prop_In (k : string) (v : value) (o : obj) :
  own_prop k o = Some v -> In (k, v) o.
Proof.
  induction o as [|[k0 v0] o IH]; simpl; [discriminate|].
  destruct (String.eqb_spec k0 k) as [->|Hne].
  - intros [= ->]. now left.
  - intros H. right. now apply IH.
Qed.

Lemma In_keys (k : string) (v : value) (o : obj) : In (k, v) o -> In k (keys o).
Proof. intros H. apply (in_map fst) in H. exact H. Qed.

(** With distinct keys, a pair of the object is what its key reads. *)
Lemma In_own_prop (k : string) (v : value) (o : obj) :
  List.NoDup (keys o) -> In (k, v) o -> own_prop k o = Some v.
Proof.
  induction o as [|[k0 v0] o IH]; simpl; [tauto|].
  intros Hnd [Heq|Hin].
  - injection Heq as -> ->. now rewrite String.eqb_refl.
  - inversion Hnd as [|? ? Hnotin Hnd']; subst.
    destruct (String.eqb_spec k0 k) as [->|Hne].
    + exfalso. apply Hnotin. eapply In_keys; eauto.
    + now apply IH.
Qed.

Lemma keys_assign (o : obj) (k : string) (v : value) (x : string) :
  In x (keys (assign o k v)) <-> x = k \/ In x (keys o).
Proof.
  induction o as [|[k0 v0] o IH]; simpl.
  - intuition congruence.
  - destruct (String.eqb_spec k0 k) as [->|Hne]; simpl.
    + intuition congruence.
    + rewrite IH. intuition congruence.
Qed.

Lemma NoDup_assign (o : obj) (k : string) (v : value) :
  List.NoDup (keys o) -> List.NoDup (keys (assign o k v)).
Proof.
  induction o as [|[k0 v0] o IH]; simpl; intros Hnd.
  - constructor; [simpl; tauto | constructor].
  - inversion Hnd as [|? ? Hnotin Hnd']; subst.
    destruct (String.eqb_spec k0 k) as [->|Hne]; simpl.
    + constructor; assumption.
    + constructor; [|now apply IH].
      rewrite keys_assign. intros [->|Hin]; [congruence | contradiction].
Qed.

Lemma NoDup_assign_all (b a : obj) :
  List.NoDup (keys a) -> List.NoDup (keys (assign_all a b)).
Proof.
  revert a. induction b as [|[k0 v0] b IH]; intros a Hnd; simpl; [exact Hnd|].
  apply IH. now apply NoDup_assign.
Qed.

Lemma keys_assign_all (b a : obj) (x : string) :
  In x (keys (assign_all a b)) <-> In x (keys a) \/ In x (keys b).
Proof.
  revert a. induction b as [|[k0 v0] b IH]; intros a; simpl.
  - tauto.
  - unfold assign_all in *. simpl. rewrite IH, keys_assign. intuition congruence.
Qed.

(** A new key goes last. *)
Lemma assign_fresh (o : obj) (k : string) (v : value) :
  ~ In k (keys o) -> assign o k v = (o ++ [(k, v)])%list.
Proof.
  induction o as [|[k0 v0] o IH]; simpl; intros Hnotin; [reflexivity|].
  destruct (String.eqb_spec k0 k) as [->|Hne]; [tauto|].
  rewrite IH; [reflexivity | tauto].
Qed.

Lemma assign_all_fresh (b a : obj) :
  List.NoDup (keys (a ++ b)%list) -> assign_all a b = (a ++ b)%list.
Proof.
  revert a. induction b as [|[k0 v0] b IH]; intros a Hnd; simpl.
  - now rewrite app_nil_r.
  - unfold assign_all in *. simpl.
    assert (Hsplit : (a ++ (k0, v0) :: b = (a ++ [(k0, v0)]) ++ b)%list)
      by now rewrite <- app_assoc.
    rewrite Hsplit in Hnd. rewrite assign_fresh.
    + rewrite IH by exact Hnd. now rewrite <- app_assoc.
    + unfold keys in Hnd. rewrite !map_app in Hnd. simpl in Hnd.
      apply List.NoDup_app_remove_r in Hnd.
      apply List.NoDup_remove_2 in Hnd. rewrite app_nil_r in Hnd. exact Hnd.
Qed.

End ObjFacts.

(* ===================================================================== *)
(** ** The flattening, leaf by leaf                                       *)
(* ===================================================================== *)

Module FlattenFacts.
Import JS Lodash Style Leaves ObjFacts.

Lemma mapKeys_unfold (o : obj) (f : string -> string) :
  mapKeys o f = assign_all [] (map (map_key f) o).
Proof. reflexivity. Qed.

Section Injective.

Variable f : string -> string.
Hypothesis f_inj : forall a b, f a = f b -> a = b.

Lemma own_prop_map_key (A : obj) (k' : string) (v : value) :
  own_prop k' (map (map_key f) A) = Some v <->
  exists k, f k = k' /\ own_prop k A = Some v.
Proof using f_inj.
  induction A as [|[k0 v0] A IH]; simpl.
  - split; [discriminate | intros (k & _ & H); discriminate].
  - destruct (String.eqb_spec (f k0) k') as [Heq|Hne].
    + split.
      * intros [= ->]. exists k0. now rewrite String.eqb_refl.
      * intros (k & Hk & H). rewrite <- Heq in Hk. apply f_inj in Hk. subst k.
        now rewrite String.eqb_refl in H.
    + rewrite IH. split; intros (k & Hk & H); exists k; split; try assumption.
      * destruct (String.eqb_spec k0 k) as [->|_]; [congruence | exact H].
      * destruct (String.eqb_spec k0 k) as [->|_]; [congruence | exact H].
Qed.

Lemma own_prop_map_key_ext (A B : obj) :
  (forall k, own_prop k A = own_prop k B) ->
  forall k', own_prop k' (map (map_key f) A) = own_prop k' (map (map_key f) B).
Proof using f_inj.
  intros Hext k'.
  destruct (own_prop k' (map (map_key f) A)) as [v|] eqn:HA.
  - apply own_prop_map_key in HA as (k & Hk & H). rewrite Hext in H.
    symmetry. apply own_prop_map_key. eauto.
  - destruct (own_prop k' (map (map_key f) B)) as [v|] eqn:HB; [|reflexivity].
    apply own_prop_map_key in HB as (k & Hk & H). rewrite <- Hext in H.
    assert (Hsome : own_prop k' (map (map_key f) A) = Some v)
      by (apply own_prop_map_key; eauto).
    congruence.
Qed.

Lemma keys_map_key (A : obj) : keys (map (map_key f) A) = map f (keys A).
Proof using Type. unfold keys. rewrite !map_map. reflexivity. Qed.

Lemma NoDup_map_key (A : obj) :
  List.NoDup (keys A) -> List.NoDup (keys (map (map_key f) A)).
Proof using f_inj.
  rewrite keys_map_key. intros Hnd.
  induction Hnd as [|x l Hnotin Hnd IH]; simpl; constructor; [|exact IH].
  rewrite in_map_iff. intros (y & Hy & Hin). apply f_inj in Hy. now subst.
Qed.

(** Renaming distinct keys one to one renames them in place. *)
Lemma mapKeys_injective (o : obj) :
  List.NoDup (keys o) -> mapKeys o f = map (map_key f) o.
Proof using f_inj.
  intros Hnd. rewrite mapKeys_unfold, assign_all_fresh; [reflexivity|].
  simpl. now apply NoDup_map_key.
Qed.

End Injective.

Lemma append_assoc (a b c : string) : ((a ++ b) ++ c = a ++ b ++ c)%string.
Proof. induction a as [|x a IH]; simpl; [reflexivity | now rewrite IH]. Qed.

Lemma append_injective (pre a b : string) : (pre ++ a = pre ++ b)%string -> a = b.
Proof. induction pre as [|c pre IH]; simpl; [tauto|]. intros [= H]. now apply IH. Qed.

Lemma own_prop_rev (o : obj) (k : string) :
  List.NoDup (keys o) -> own_prop k (rev o) = own_prop k o.
Proof.
  intros Hnd.
  destruct (own_prop k o) as [v|] eqn:Ho.
  - apply In_own_prop.
    + unfold keys. rewrite map_rev. apply List.NoDup_rev. exact Hnd.
    + apply in_rev. rewrite rev_involutive. now apply own_prop_In.
  - apply own_prop_None. apply own_prop_None in Ho.
    unfold keys in *. rewrite map_rev, <- in_rev. exact Ho.
Qed.

Lemma formatted_rename (pre : string) (ls : list leaf) :
  map formatted (map (fun l : leaf => ((pre ++ fst l)%string, snd l)) ls) =
  map (map_key (String.append pre)) (map formatted ls).
Proof. rewrite !map_map. reflexivity. Qed.

Lemma entry_leaves_cons (lrecur : value -> list leaf) (key : string) (val : value)
  (es : obj) :
  entry_leaves lrecur ((key, val) :: es) =
  ((if isObject val
    then map (fun l : leaf => ((kebabCase key ++ token ++ fst l)%string, snd l))
           (lrecur val)
    else [(kebabCase key, (key, val))]) ++ entry_leaves lrecur es)%list.
Proof. reflexivity. Qed.

Lemma forEach_entry_cons (recur : value -> completion obj) (key : string)
  (val : value) (es acc : obj) :
  forEach_entry recur ((key, val) :: es) acc =
  if negb (isObject val) then
    let! formatted := valueFormatter key val in
    forEach_entry recur es (assign acc (kebabCase key) formatted)
  else
    let! nested := recur val in
    forEach_entry recur es
      (spread acc (mapKeys nested (fun subkey => kebabCase key ++ token ++ subkey))).
Proof. reflexivity. Qed.

Lemma forEach_entry_holds (recur : value -> completion obj)
  (lrecur : value -> list leaf) (es : obj) :
  Forall (fun kv => isObject (snd kv) = true ->
                    forall nested, recur (snd kv) = Return nested ->
                                   holds nested (lrecur (snd kv))) es ->
  forall acc r,
    List.NoDup (keys acc) ->
    forEach_entry recur es acc = Return r ->
    List.NoDup (keys r) /\
    forall k, own_prop k r =
              match own_prop k (rev (map formatted (entry_leaves lrecur es))) with
              | Some v => Some v
              | None => own_prop k acc
              end.
Proof.
  induction 1 as [|[key val] es Hhead _ IH]; intros acc r Hnd Hrun.
  - injection Hrun as <-. split; [exact Hnd | reflexivity].
  - simpl in Hhead. rewrite entry_leaves_cons. rewrite forEach_entry_cons in Hrun.
    destruct (isObject val) eqn:Hobj; cbn [negb] in Hrun.
    + destruct (recur val) as [nested|] eqn:Hrec; cbn [bind] in Hrun; [|discriminate].
      destruct (Hhead eq_refl nested eq_refl) as [Hndn Hn].
      apply IH in Hrun as [Hndr Hr]; [|now apply NoDup_assign_all].
      split; [exact Hndr|]. intros k. rewrite Hr.
      rewrite map_app, rev_app_distr, own_prop_app.
      destruct (own_prop k (rev (map formatted (entry_leaves lrecur es)))); [reflexivity|].
      unfold spread. rewrite own_prop_assign_all.
      set (f := String.append (kebabCase key ++ token)).
      assert (f_inj : forall a b, f a = f b -> a = b)
        by (intros a b; apply append_injective).
      assert (Hmk : mapKeys nested (fun subkey => (kebabCase key ++ token ++ subkey)%string)
                    = map (map_key f) nested).
      { rewrite <- (mapKeys_injective f f_inj nested Hndn).
        unfold mapKeys, f. f_equal. apply map_ext. intros [a b].
        unfold map_key. cbn [fst snd]. now rewrite append_assoc. }
      rewrite Hmk, own_prop_rev by now apply NoDup_map_key.
      assert (Hls : map formatted
                      (map (fun l : leaf => ((kebabCase key ++ token ++ fst l)%string, snd l))
                         (lrecur val))
                    = map (map_key f) (map formatted (lrecur val))).
      { rewrite !map_map. apply map_ext. intros [a b].
        unfold formatted, map_key, f. simpl. now rewrite append_assoc. }
      rewrite Hls, <- map_rev.
      rewrite (own_prop_map_key_ext f f_inj nested _ Hn). reflexivity.
    + destruct (valueFormatter key val) as [fv|] eqn:Hfmt; cbn [bind] in Hrun;
        [|discriminate].
      apply IH in Hrun as [Hndr Hr]; [|now apply NoDup_assign].
      split; [exact Hndr|]. intros k. rewrite Hr.
      rewrite map_app, rev_app_distr, own_prop_app.
      destruct (own_prop k (rev (map formatted (entry_leaves lrecur es)))); [reflexivity|].
      rewrite own_prop_assign. cbn [map rev app own_prop formatted fst snd]. rewrite Hfmt.
      destruct (kebabCase key =? k); reflexivity.
Qed.

Lemma getNestedCSSVariables_other (config : value) :
  (forall fields, config <> VObj fields) ->
  getNestedCSSVariables config = forEach_entry (fun _ => Return []) (entries config) []
  /\ flat_leaves config = entry_leaves (fun _ => []) (entries config).
Proof. destruct config; intros H; try (split; reflexivity). now destruct (H fields). Qed.

(** The nested walk returns an object that holds the leaves of the
    configuration. *)
Lemma getNestedCSSVariables_holds (config : value) :
  forall nested, getNestedCSSVariables config = Return nested ->
                 holds nested (flat_leaves config).
Proof.
  induction config as [| | | | |fields IH|p _] using value_fields_ind;
    intros nested Hrun.
  1-5,7:
    (match type of Hrun with
     | getNestedCSSVariables ?c = _ =>
         destruct (getNestedCSSVariables_other c) as [Hc Hl]; [intros ? [=]|]
     end;
     rewrite Hc in Hrun; rewrite Hl;
     apply forEach_entry_holds with (lrecur := fun _ => []) in Hrun;
     [ destruct Hrun as [Hnd Hr]; split; [exact Hnd|];
       intros k; rewrite Hr;
       match goal with |- match ?x with _ => _ end = _ => destruct x end; reflexivity
     | apply Forall_forall; intros kv _ _ nested' [= <-];
       split; [exact (List.NoDup_nil _) | reflexivity]
     | exact (List.NoDup_nil _) ]).
  change (forEach_entry getNestedCSSVariables fields [] = Return nested) in Hrun.
  change (flat_leaves (VObj fields)) with (entry_leaves flat_leaves fields).
  apply forEach_entry_holds with (lrecur := flat_leaves) in Hrun.
  - destruct Hrun as [Hnd Hr]. split; [exact Hnd|].
    intros k. rewrite Hr.
    destruct (own_prop k (rev (map formatted (entry_leaves flat_leaves fields))));
      reflexivity.
  - eapply Forall_impl; [exact IH|]. intros kv HP _ nested' Hn. now apply HP.
  - exact (List.NoDup_nil _).
Qed.

(** [getCSSVariables] returns an object that holds the leaves of the
    configuration under their full names. *)
Lemma getCSSVariables_holds (styles : value) (r : obj) :
  getCSSVariables styles = Return r -> holds r (css_leaves styles).
Proof.
  unfold getCSSVariables, css_leaves.
  set (styles' := match styles with VUndefined => VObj [] | _ => styles end).
  destruct (getNestedCSSVariables styles') as [nested|] eqn:Hrun; cbn [bind]; [|discriminate].
  intros [= <-]. apply getNestedCSSVariables_holds in Hrun as [Hnd Hn].
  set (f := String.append (prefix ++ token)).
  assert (f_inj : forall a b, f a = f b -> a = b) by (intros a b; apply append_injective).
  assert (Hmk : mapKeys nested (fun key => (prefix ++ token ++ key)%string)
                = map (map_key f) nested).
  { rewrite <- (mapKeys_injective f f_inj nested Hnd).
    unfold mapKeys, f. f_equal. }
  change (mapKeys nested _)
    with (mapKeys nested (fun key => (prefix ++ token ++ key)%string)).
  rewrite Hmk. split; [now apply NoDup_map_key|].
  intros k.
  assert (Hls : map formatted
                  (map (fun l : leaf => ((prefix ++ token ++ fst l)%string, snd l))
                     (flat_leaves styles'))
                = map (map_key f) (map formatted (flat_leaves styles'))).
  { rewrite !map_map. apply map_ext. intros [a b]. reflexivity. }
  rewrite Hls, <- map_rev.
  apply (own_prop_map_key_ext f f_inj). exact Hn.
Qed.

(** The keys of the returned object are names of leaves. *)
Lemma holds_keys (r : obj) (ls : list leaf) (k : string) :
  holds r ls -> In k (keys r) -> In k (map fst ls).
Proof.
  intros [_ Hr] Hin.
  destruct (own_prop k r) as [v|] eqn:Hk.
  - rewrite Hr in Hk. apply own_prop_In, in_rev in Hk.
    apply in_map_iff in Hk as ([g kv] & Heq & Hl). injection Heq as -> _.
    apply in_map_iff. now exists (k, kv).
  - apply own_prop_None in Hk. contradiction.
Qed.

(** A name that one leaf only generates holds that leaf. *)
Lemma holds_unique (r : obj) (ls : list leaf) (g : string) (kv : string * value) :
  holds r ls -> In (g, kv) ls ->
  (forall kv', In (g, kv') ls -> kv' = kv) ->
  own_prop g r = Some (snd (formatted (g, kv))).
Proof.
  intros [_ Hr] Hin Huniq. rewrite Hr.
  destruct (own_prop g (rev (map formatted ls))) as [v|] eqn:Hg.
  - apply own_prop_In, in_rev in Hg.
    apply in_map_iff in Hg as ([g' kv'] & Heq & Hl).
    unfold formatted in Heq. simpl in Heq. injection Heq as -> <-.
    now rewrite (Huniq kv' Hl).
  - apply own_prop_None in Hg. exfalso. apply Hg.
    unfold keys. rewrite map_rev, <- in_rev, map_map. apply in_map_iff.
    now exists (g, kv).
Qed.

Lemma In_entry_leaves_leaf (lrecur : value -> list leaf) (es : obj) (key : string)
  (val : value) :
  In (key, val) es -> isObject val = false ->
  In (kebabCase key, (key, val)) (entry_leaves lrecur es).
Proof.
  induction es as [|[k0 v0] es IH]; [contradiction|].
  intros [Heq|Hin] Hleaf; rewrite entry_leaves_cons; apply in_or_app.
  - injection Heq as -> ->. rewrite Hleaf. left. now left.
  - right. now apply IH.
Qed.

Lemma In_entry_leaves_nested (lrecur : value -> list leaf) (es : obj) (key : string)
  (val : value) (l : leaf) :
  In (key, val) es -> isObject val = true -> In l (lrecur val) ->
  In ((kebabCase key ++ token ++ fst l)%string, snd l) (entry_leaves lrecur es).
Proof.
  induction es as [|[k0 v0] es IH]; [contradiction|].
  intros [Heq|Hin] Hobj Hl; rewrite entry_leaves_cons; apply in_or_app.
  - injection Heq as -> ->. rewrite Hobj. left.
    apply in_map_iff. now exists l.
  - right. now apply IH.
Qed.

(** *** When the flattening returns

    It returns when no leaf has a formatter that throws. *)

Lemma forEach_entry_returns (recur : value -> completion obj)
  (lrecur : value -> list leaf) (es : obj) :
  Forall (fun kv => isObject (snd kv) = true ->
                    (forall l, In l (lrecur (snd kv)) -> throws_on l = false) ->
                    exists nested, recur (snd kv) = Return nested) es ->
  (forall l, In l (entry_leaves lrecur es) -> throws_on l = false) ->
  forall acc, exists r, forEach_entry recur es acc = Return r.
Proof.
  induction 1 as [|[key val] es Hhead _ IH]; intros Hleaves acc.
  - now exists acc.
  - rewrite entry_leaves_cons in Hleaves. rewrite forEach_entry_cons.
    cbn [fst snd] in Hhead.
    destruct (isObject val) eqn:Hobj; cbn [negb].
    + destruct (Hhead eq_refl) as [nested ->].
      * intros l Hl.
        change (throws_on l)
          with (throws_on ((kebabCase key ++ token ++ fst l)%string, snd l)).
        apply Hleaves, in_or_app. left. apply in_map_iff. now exists l.
      * cbn [bind]. apply IH. intros l Hl. apply Hleaves, in_or_app. now right.
    + assert (Hfmt : throws_on (kebabCase key, (key, val)) = false)
        by (apply Hleaves, in_or_app; left; now left).
      unfold throws_on in Hfmt. cbn [fst snd] in Hfmt.
      destruct (valueFormatter key val); [|discriminate].
      cbn [bind]. apply IH. intros l Hl. apply Hleaves, in_or_app. now right.
Qed.

Lemma getNestedCSSVariables_returns (config : value) :
  (forall l, In l (flat_leaves config) -> throws_on l = false) ->
  exists nested, getNestedCSSVariables config = Return nested.
Proof.
  induction config as [| | | | |fields IH|p _] using value_fields_ind; intros Hleaves.
  1-5,7:
    (match goal with
     | |- exists _, getNestedCSSVariables ?c = _ =>
         destruct (getNestedCSSVariables_other c) as [Hc Hl]; [intros ? [=]|]
     end;
     rewrite Hc; rewrite Hl in Hleaves;
     apply forEach_entry_returns with (lrecur := fun _ => []); [|exact Hleaves];
     apply Forall_forall; intros kv _ _ _; now exists []).
  change (getNestedCSSVariables (VObj fields))
    with (forEach_entry getNestedCSSVariables fields []).
  apply forEach_entry_returns with (lrecur := flat_leaves); [|exact Hleaves].
  eapply Forall_impl; [exact IH|]. intros kv HP _. exact HP.
Qed.

Lemma getCSSVariables_returns (styles : value) :
  (forall l, In l (css_leaves styles) -> throws_on l = false) ->
  exists r, getCSSVariables styles = Return r.
Proof.
  intros Hleaves. unfold getCSSVariables.
  destruct (getNestedCSSVariables_returns
              (match styles with VUndefined => VObj [] | _ => styles end))
    as [nested ->].
  - intros l Hl.
    change (throws_on l) with (throws_on ((prefix ++ token ++ fst l)%string, snd l)).
    apply Hleaves. unfold css_leaves. apply in_map_iff. now exists l.
  - cbn [bind]. eauto.
Qed.

(** *** The recursion as the source writes it

    The entries of a value that is not a plain object are index characters,
    so the walk over them never recurs, and [getNestedCSSVariables] is the
    walk over [entries( config )] with itself as the recursive call. *)

Lemma forEach_entry_leaves (r1 r2 : value -> completion obj) (es : obj) :
  (forall kv, In kv es -> isObject (snd kv) = false) ->
  forall acc, forEach_entry r1 es acc = forEach_entry r2 es acc.
Proof.
  induction es as [|[key val] es IH]; intros Hleaves acc; [reflexivity|].
  rewrite !forEach_entry_cons.
  assert (Hleaf : isObject val = false) by (apply (Hleaves (key, val)); now left).
  rewrite Hleaf. cbn [negb].
  destruct (valueFormatter key val); cbn [bind]; [|reflexivity].
  apply IH. intros kv Hin. apply Hleaves. now right.
Qed.

Lemma index_entries_leaves (s : string) :
  forall i kv, In kv (index_entries i s) -> isObject (snd kv) = false.
Proof.
  induction s as [|c s IH]; intros i kv; cbn [index_entries]; [contradiction|].
  intros [<-|Hin]; [reflexivity | now apply (IH (S i))].
Qed.

Lemma getNestedCSSVariables_eq (config : value) :
  getNestedCSSVariables config
  = forEach_entry getNestedCSSVariables (entries config) [].
Proof.
  destruct config as [| | | | |fields|p]; try reflexivity.
  - apply forEach_entry_leaves. apply index_entries_leaves.
  - destruct p; try reflexivity.
    apply forEach_entry_leaves. apply index_entries_leaves.
Qed.

(** A walk that returns met no leaf whose formatter throws. *)
Lemma forEach_entry_no_throw (recur : value -> completion obj)
  (lrecur : value -> list leaf) (es : obj) :
  Forall (fun kv => isObject (snd kv) = true ->
                    forall nested, recur (snd kv) = Return nested ->
                                   forall l, In l (lrecur (snd kv)) -> throws_on l = false) es ->
  forall acc r,
    forEach_entry recur es acc = Return r ->
    forall l, In l (entry_leaves lrecur es) -> throws_on l = false.
Proof.
  induction 1 as [|[key val] es Hhead _ IH]; intros acc r Hrun l Hl.
  - contradiction.
  - rewrite entry_leaves_cons in Hl. rewrite forEach_entry_cons in Hrun.
    cbn [fst snd] in Hhead. apply in_app_or in Hl.
    destruct (isObject val) eqn:Hobj; cbn [negb] in Hrun.
    + destruct (recur val) as [nested|] eqn:Hrec; cbn [bind] in Hrun; [|discriminate].
      destruct Hl as [Hl|Hl]; [|now apply (IH _ _ Hrun)].
      apply in_map_iff in Hl as (l0 & <- & Hl0).
      change (throws_on ((kebabCase key ++ token ++ fst l0)%string, snd l0))
        with (throws_on l0).
      now apply (Hhead eq_refl nested).
    + destruct (valueFormatter key val) as [fv|] eqn:Hfmt; cbn [bind] in Hrun;
        [|discriminate].
      destruct Hl as [[<-|[]]|Hl]; [|now apply (IH _ _ Hrun)].
      unfold throws_on. cbn [fst snd]. now rewrite Hfmt.
Qed.

Lemma getNestedCSSVariables_no_throw (config : value) :
  forall nested, getNestedCSSVariables config = Return nested ->
                 forall l, In l (flat_leaves config) -> throws_on l = false.
Proof.
  induction config as [| | | | |fields IH|p _] using value_fields_ind;
    intros nested Hrun.
  1-5,7:
    (match type of Hrun with
     | getNestedCSSVariables ?c = _ =>
         destruct (getNestedCSSVariables_other c) as [Hc Hl]; [intros ? [=]|]
     end;
     rewrite Hc in Hrun; rewrite Hl;
     eapply (forEach_entry_no_throw (fun _ => Return []) (fun _ => []));
     [apply Forall_forall; intros kv _ _ nested' _ l []|exact Hrun]).
  change (forEach_entry getNestedCSSVariables fields [] = Return nested) in Hrun.
  change (flat_leaves (VObj fields)) with (entry_leaves flat_leaves fields).
  eapply (forEach_entry_no_throw getNestedCSSVariables flat_leaves); [|exact Hrun].
  eapply Forall_impl; [exact IH|]. intros kv HP _ nested' Hn. exact (HP nested' Hn).
Qed.

Lemma getCSSVariables_no_throw (styles : value) (r : obj) :
  getCSSVariables styles = Return r ->
  forall l, In l (css_leaves styles) -> throws_on l = false.
Proof.
  unfold getCSSVariables, css_leaves.
  destruct (getNestedCSSVariables _) as [nested|] eqn:Hrun; cbn [bind]; [|discriminate].
  intros _ l Hl. apply in_map_iff in Hl as (l0 & <- & Hl0).
  change (throws_on ((prefix ++ token ++ fst l0)%string, snd l0)) with (throws_on l0).
  exact (getNestedCSSVariables_no_throw _ nested Hrun l0 Hl0).
Qed.

End FlattenFacts.

(* ===================================================================== *)
(** ** Properties of [getCSSVariables]                                    *)
(* ===================================================================== *)

Module FlattenProperties.
Import JS Lodash Style Leaves ObjFacts FlattenFacts.

(** For a key that is not the name of a member of [Object.prototype], the
    formatter is the registered one: [fontSize] has one, no other key has. *)
Lemma valueFormatter_registered (key : string) (val : value) :
  mem key inherited_members = false ->
  valueFormatter key val = Return (if key =? "fontSize" then fontSize val else val).
Proof.
  unfold valueFormatter, inherited_members. cbn [mem existsb].
  intros H.
  destruct (key =? "fontSize"); [reflexivity|].
  destruct (key =? "constructor"); [discriminate|].
  destruct (key =? "toString"); [discriminate|].
  destruct (key =? "isPrototypeOf"); [discriminate|].
  cbn [orb] in H. unfold mem. rewrite H. reflexivity.
Qed.

(** The names [valueFormatters] inherits are the members of
    [Object.prototype]. *)
Lemma inherited_members_object (key : string) :
  mem key inherited_members = mem key object_methods || (key =? "__proto__").
Proof.
  unfold inherited_members, throwing_members, object_methods. cbn [mem existsb].
  repeat match goal with
         | |- context [key =? ?n] =>
             destruct (String.eqb_spec key n) as [->|_]; [reflexivity|]
         end.
  reflexivity.
Qed.








(** C2, at the inputs where the code leaves the claim: a key that names a
    member of [Object.prototype] finds that member in [valueFormatters], so
    a formatter runs for keys other than [fontSize] ([toString],
    [constructor], [isPrototypeOf]) or the call throws ([valueOf] and the
    like).  Flattening [{ fontSize: 16 }] gives [{ "--wp--font-size": "16px" }],
    and a falsy font size is left as it is. *)
Theorem getCSSVariables_inherited_formatter :
  getCSSVariables (VObj [("fontSize", VNum 16)]) = Return [("--wp--font-size", VStr "16px")]
  /\ getCSSVariables (VObj [("fontSize", VNum 0)]) = Return [("--wp--font-size", VNum 0)]
  /\ getCSSVariables (VObj [("toString", VNum 16)])
     = Return [("--wp--to-string", VStr "[object Undefined]")]
  /\ getCSSVariables (VObj [("constructor", VNum 16)])
     = Return [("--wp--constructor", VWrapper (VNum 16))]
  /\ getCSSVariables (VObj [("isPrototypeOf", VNum 16)])
     = Return [("--wp--is-prototype-of", VBool false)]
  /\ getCSSVariables (VObj [("valueOf", VNum 16)]) = Throw.
Proof. repeat split; reflexivity. Qed.

(** C3.  Every key of the object that [getCSSVariables] returns starts with
    ["--wp--"], and the empty configuration flattens to the empty object. *)
Theorem getCSSVariables_keys_prefixed :
  (forall (styles : value) (r : obj) (k : string),
      getCSSVariables styles = Return r -> In k (keys r) ->
      String.prefix "--wp--" k = true)
  /\ getCSSVariables (VObj []) = Return [].
Proof.
  split; [|reflexivity].
  intros styles r k Hrun Hin.
  apply getCSSVariables_holds in Hrun.
  apply (holds_keys r _ k Hrun) in Hin.
  unfold css_leaves in Hin. rewrite map_map in Hin.
  apply in_map_iff in Hin as (l & <- & _). cbn [fst].
  change (String.prefix "--wp--" ("--wp--" ++ fst l) = true).
  simpl. repeat (destruct (ascii_dec _ _) as [_|Hne]; [|now destruct Hne]).
  destruct (fst l); reflexivity.
Qed.

Lemma getCSSVariables_keys_prefixed_witness :
  String.prefix "--wp--" "--wp--color--text" = true.
Proof.
  apply (proj1 getCSSVariables_keys_prefixed
           (VObj [("color", VObj [("text", VStr "red")])])
           [("--wp--color--text", VStr "red")]).
  - reflexivity.
  - left. reflexivity.
Defined.

End FlattenProperties.

(* ===================================================================== *)
(** ** [kebabCase] on dash-case keys                                      *)
(* ===================================================================== *)

Module KebabFacts.
Import JS Lodash DashCase.

Lemma is_lower_not_upper (c : ascii) : is_lower c = true -> is_upper c = false.
Proof.
  unfold is_lower, is_upper, between. cbn [nat_of_ascii].
  rewrite andb_true_iff, andb_false_iff, !Nat.leb_le, !Nat.leb_gt.
  change (nat_of_ascii "a") with 97. change (nat_of_ascii "z") with 122.
  change (nat_of_ascii "A") with 65. change (nat_of_ascii "Z") with 90.
  lia.
Qed.

Lemma is_lower_word_char (c : ascii) : is_lower c = true -> is_ascii_word_char c = true.
Proof.
  intros H. unfold is_ascii_word_char, is_alnum, is_letter. now rewrite H.
Qed.

Lemma toLower_lower (c : ascii) : is_lower c = true -> toLower c = c.
Proof. intros H. unfold toLower. now rewrite (is_lower_not_upper c H). Qed.

(** The first word of a dash-case string and what follows it. *)
Lemma span_dash_words (s : string) :
  forall b, dash_words b s = true ->
    b || nonempty (fst (span is_lower s)) = true
    /\ toLowerCase (fst (span is_lower s)) = fst (span is_lower s)
    /\ s = (fst (span is_lower s) ++ snd (span is_lower s))%string
    /\ (snd (span is_lower s) = EmptyString
        \/ exists s', snd (span is_lower s) = String "-" s'
                      /\ dash_words false s' = true).
Proof.
  induction s as [|c s IH]; intros b H; cbn [dash_words span] in *.
  - subst b. repeat split. now left.
  - destruct (is_lower c) eqn:Hc.
    + destruct (IH true H) as (_ & Hlow & Hs & Hrest).
      destruct (span is_lower s) as [w rest]. cbn [fst snd] in *.
      repeat split.
      * apply orb_true_r.
      * cbn [toLowerCase]. now rewrite Hlow, toLower_lower.
      * cbn [append]. now rewrite <- Hs.
      * exact Hrest.
    + destruct (Ascii.eqb_spec c "-") as [->|_]; [|discriminate].
      apply andb_true_iff in H as [-> H]. cbn [fst snd].
      repeat split. right. now exists s.
Qed.

Lemma span_word_chars (s : string) :
  forall b, dash_words b s = true -> span is_ascii_word_char s = span is_lower s.
Proof.
  induction s as [|c s IH]; intros b H; cbn [dash_words span] in *; [reflexivity|].
  destruct (is_lower c) eqn:Hc.
  - rewrite (is_lower_word_char c Hc), (IH true H). reflexivity.
  - destruct (Ascii.eqb_spec c "-") as [->|_]; [reflexivity | discriminate].
Qed.

Lemma removeApos_dash_words (s : string) :
  forall b, dash_words b s = true -> removeApos s = s.
Proof.
  induction s as [|c s IH]; intros b H; cbn [dash_words removeApos] in *; [reflexivity|].
  destruct (is_lower c) eqn:Hc.
  - destruct (Ascii.eqb_spec c "'") as [->|_]; [discriminate Hc|].
    now rewrite (IH true H).
  - destruct (Ascii.eqb_spec c "-") as [->|_]; [|discriminate].
    apply andb_true_iff in H as [_ H]. cbn. now rewrite (IH false H).
Qed.

Lemma append_nil_r (a : string) : (a ++ "")%string = a.
Proof. induction a as [|c a IH]; cbn; [reflexivity | now rewrite IH]. Qed.

Lemma length_append (a b : string) :
  String.length (a ++ b) = String.length a + String.length b.
Proof. induction a as [|c a IH]; cbn; [reflexivity | now rewrite IH]. Qed.

Section Matches.

(** A regular expression that, on dash-case strings, matches the first word
    and matches nothing at a dash: both [reUnicodeWord] and [reAsciiWord]
    do. *)
Variable re : string -> option (string * string).
Hypothesis re_word :
  forall s, is_dash_case s = true -> re s = Some (span is_lower s).
Hypothesis re_dash : forall s, re (String "-" s) = None.

Lemma compound_matches (fuel : nat) :
  forall (s : string) (index : nat) (result : string),
    String.length s <= fuel ->
    is_dash_case s = true ->
    compound index result (matches_from re fuel s)
    = (result ++ (if (index =? 0)%nat then "" else "-") ++ s)%string.
Proof using re_word re_dash.
  induction fuel as [fuel IH] using lt_wf_ind. intros s index result Hlen Hs.
  destruct fuel as [|fuel]; [destruct s; [discriminate Hs | cbn in Hlen; lia]|].
  assert (Hm : matches_from re (S fuel) s
               = fst (span is_lower s) :: matches_from re fuel (snd (span is_lower s))).
  { destruct s; [discriminate Hs|]. cbn [matches_from]. rewrite (re_word _ Hs).
    now destruct (span is_lower (String a s)). }
  destruct (span_dash_words s false Hs) as (Hne & Hlow & Hsplit & Hrest).
  rewrite Hm. clear Hm.
  destruct (span is_lower s) as [w rest]. cbn [fst snd orb] in *.
  cbn [compound]. rewrite Hlow.
  assert (Hlenw : 1 <= String.length w)
    by (destruct w; [discriminate Hne | cbn; lia]).
  rewrite Hsplit, length_append in Hlen. rewrite Hsplit.
  destruct Hrest as [->|(s' & -> & Hs')].
  - replace (matches_from re fuel EmptyString) with (@nil string)
      by (destruct fuel; reflexivity).
    cbn [compound]. now rewrite append_nil_r.
  - cbn [String.length] in Hlen.
    destruct fuel as [|fuel]; [lia|].
    cbn [matches_from]. rewrite re_dash.
    rewrite (IH fuel); [|lia|lia|exact Hs'].
    cbn [Nat.eqb]. rewrite !FlattenFacts.append_assoc. reflexivity.
Qed.

End Matches.

Lemma reUnicodeWord_word (s : string) :
  is_dash_case s = true -> reUnicodeWord s = Some (span is_lower s).
Proof.
  intros Hs. unfold reUnicodeWord. cbn [first_match]. unfold word_lower_ahead.
  destruct (span_dash_words s false Hs) as (Hne & _ & _ & Hrest). cbn [orb] in Hne.
  assert (Hopt : opt_upper s = (EmptyString, s)).
  { destruct s as [|c s]; [reflexivity|]. unfold is_dash_case in Hs. cbn in Hs. cbn.
    destruct (is_lower c) eqn:Hc.
    - now rewrite (is_lower_not_upper c Hc).
    - destruct (Ascii.eqb_spec c "-") as [->|_]; [reflexivity | discriminate]. }
  rewrite Hopt. destruct (span is_lower s) as [w rest]. cbn [fst snd] in *.
  rewrite Hne. destruct Hrest as [->|(s' & -> & _)]; reflexivity.
Qed.

Lemma reUnicodeWord_dash (s : string) : reUnicodeWord (String "-" s) = None.
Proof. reflexivity. Qed.

Lemma reAsciiWord_word (s : string) :
  is_dash_case s = true -> reAsciiWord s = Some (span is_lower s).
Proof.
  intros Hs. unfold reAsciiWord. rewrite (span_word_chars s false Hs).
  destruct (span_dash_words s false Hs) as (Hne & _). cbn [orb] in Hne.
  destruct (span is_lower s) as [w rest]. cbn [fst] in Hne. now rewrite Hne.
Qed.

Lemma reAsciiWord_dash (s : string) : reAsciiWord (String "-" s) = None.
Proof. reflexivity. Qed.

(** Kebab-casing a key that is in dash case gives the key back. *)
Lemma kebabCase_dash_case (s : string) : is_dash_case s = true -> kebabCase s = s.
Proof.
  intros Hs. unfold kebabCase, words. rewrite (removeApos_dash_words s false Hs).
  destruct (hasUnicodeWord s).
  - unfold unicodeWords.
    now rewrite (compound_matches reUnicodeWord reUnicodeWord_word reUnicodeWord_dash).
  - unfold asciiWords.
    now rewrite (compound_matches reAsciiWord reAsciiWord_word reAsciiWord_dash).
Qed.

(** *** The matching loop has fuel enough

    A match of a regular expression that consumes at least one character
    leaves a shorter string, so past [String.length s] steps the matches of
    [s] do not change. *)

Lemma matches_from_fuel (re : string -> option (string * string)) :
  consuming re ->
  forall fuel1 fuel2 s,
    String.length s <= fuel1 -> String.length s <= fuel2 ->
    matches_from re fuel1 s = matches_from re fuel2 s.
Proof.
  intros Hre. induction fuel1 as [|fuel1 IH]; intros fuel2 s H1 H2.
  - destruct s; [|cbn in H1; lia]. now destruct fuel2.
  - destruct fuel2 as [|fuel2]; [destruct s; [reflexivity | cbn in H2; lia]|].
    destruct s as [|c rest]; [reflexivity|]. cbn [matches_from].
    destruct (re (String c rest)) as [[w r]|] eqn:Hm.
    + apply Hre in Hm. f_equal. apply IH; lia.
    + cbn [String.length] in *. apply IH; lia.
Qed.

Lemma span_length (p : ascii -> bool) (s : string) :
  String.length (fst (span p s)) + String.length (snd (span p s)) = String.length s.
Proof.
  induction s as [|c s IH]; cbn [span]; [reflexivity|].
  destruct (p c); [|reflexivity].
  destruct (span p s) as [w r]. cbn [fst snd String.length] in *. lia.
Qed.

Lemma nonempty_length (s : string) : nonempty s = true -> 1 <= String.length s.
Proof. destruct s; [discriminate | cbn; lia]. Qed.

Lemma opt_upper_length (s : string) :
  String.length (fst (opt_upper s)) + String.length (snd (opt_upper s)) = String.length s.
Proof. destruct s as [|c s]; [reflexivity|]. cbn. now destruct (is_upper c). Qed.

Lemma give_back_length (w r : string) :
  String.length (fst (give_back w r)) + String.length (snd (give_back w r))
  = String.length w + String.length r.
Proof.
  induction w as [|c w IH]; [reflexivity|].
  destruct w as [|c' w']; [cbn; lia|].
  change (give_back (String c (String c' w')) r)
    with (let '(w1, r1) := give_back (String c' w') r in (String c w1, r1)).
  destruct (give_back (String c' w') r) as [w1 r1].
  cbn [fst snd String.length] in *. lia.
Qed.

Lemma substring_length_le (n m : nat) (s : string) :
  String.length (String.substring n m s) <= m.
Proof.
  revert n m. induction s as [|c s IH]; intros n m.
  - destruct n, m; cbn; lia.
  - destruct n as [|n]; destruct m as [|m]; cbn; try lia.
    + specialize (IH 0 m). lia.
    + apply IH.
    + apply IH.
Qed.

Lemma last_char_nonempty (s : string) (x : ascii) :
  last_char s = Some x -> 1 <= String.length s.
Proof. destruct s; [discriminate | cbn; lia]. Qed.

Ltac span_facts p s :=
  let H := fresh "Hspan" in
  pose proof (span_length p s) as H;
  destruct (span p s); cbn [fst snd] in *.

Lemma reAsciiWord_consuming : consuming reAsciiWord.
Proof.
  intros s w r. unfold reAsciiWord. span_facts is_ascii_word_char s.
  destruct (nonempty s0) eqn:Hne; [|discriminate].
  intros [= <- <-]. apply nonempty_length in Hne. lia.
Qed.

Lemma word_lower_ahead_consuming : consuming word_lower_ahead.
Proof.
  intros s w r. unfold word_lower_ahead.
  pose proof (opt_upper_length s) as Hopt. destruct (opt_upper s) as [u r0].
  cbn [fst snd] in *. span_facts is_lower r0.
  destruct (nonempty s0) eqn:Hne; cbn [andb]; [|discriminate].
  destruct (_ || _); [|discriminate].
  intros [= <- <-]. apply nonempty_length in Hne. lia.
Qed.

Lemma word_lower_consuming : consuming word_lower.
Proof.
  intros s w r. unfold word_lower.
  pose proof (opt_upper_length s) as Hopt. destruct (opt_upper s) as [u r0].
  cbn [fst snd] in *. span_facts is_lower r0.
  destruct (nonempty s0) eqn:Hne; [|discriminate].
  intros [= <- <-]. apply nonempty_length in Hne. lia.
Qed.

Lemma word_upper_ahead_consuming : consuming word_upper_ahead.
Proof.
  intros s w r. unfold word_upper_ahead. span_facts is_upper s.
  destruct (nonempty s0 && _) eqn:Hwhole.
  - apply andb_true_iff in Hwhole as [Hne _].
    intros [= <- <-]. apply nonempty_length in Hne. lia.
  - pose proof (give_back_length s0 s1) as Hback.
    destruct (give_back s0 s1) as [u1 r1]. cbn [fst snd] in *.
    destruct (nonempty u1) eqn:Hne; cbn [andb]; [|discriminate].
    destruct (head_is is_lower s1); [|discriminate].
    intros [= <- <-]. apply nonempty_length in Hne. lia.
Qed.

Lemma word_upper_consuming : consuming word_upper.
Proof.
  intros s w r. unfold word_upper. span_facts is_upper s.
  destruct (nonempty s0) eqn:Hne; [|discriminate].
  intros [= <- <-]. apply nonempty_length in Hne. lia.
Qed.

Lemma word_digits_consuming : consuming word_digits.
Proof.
  intros s w r. unfold word_digits. span_facts is_digit s.
  destruct (nonempty s0) eqn:Hne; [|discriminate].
  intros [= <- <-]. apply nonempty_length in Hne. lia.
Qed.

Lemma word_ordinal_consuming (lower : bool) : consuming (word_ordinal lower).
Proof.
  intros s w r. unfold word_ordinal. span_facts is_digit s.
  destruct (last_char s0) as [x|] eqn:Hlast; [|discriminate].
  apply last_char_nonempty in Hlast.
  destruct (_ && _); [|discriminate].
  intros [= _ <-].
  pose proof (substring_length_le 2 (String.length s1 - 2) s1). lia.
Qed.

Lemma first_match_consuming (alts : list (string -> option (string * string))) :
  Forall consuming alts -> consuming (first_match alts).
Proof.
  induction 1 as [|alt alts Halt _ IH]; intros s w r; cbn [first_match]; [discriminate|].
  destruct (alt s) as [[w' r']|] eqn:Hm.
  - intros [= <- <-]. now apply Halt in Hm.
  - apply IH.
Qed.

Lemma reUnicodeWord_consuming : consuming reUnicodeWord.
Proof.
  apply first_match_consuming.
  repeat (apply List.Forall_cons || apply List.Forall_nil);
    auto using word_lower_ahead_consuming, word_upper_ahead_consuming,
      word_lower_consuming, word_upper_consuming, word_ordinal_consuming,
      word_digits_consuming.
Qed.

(** More steps than the length of the string find the same words. *)
Lemma unicodeWords_fuel (s : string) (fuel : nat) :
  String.length s <= fuel -> matches_from reUnicodeWord fuel s = unicodeWords s.
Proof.
  intros H. apply (matches_from_fuel _ reUnicodeWord_consuming); [exact H | lia].
Qed.

Lemma asciiWords_fuel (s : string) (fuel : nat) :
  String.length s <= fuel -> matches_from reAsciiWord fuel s = asciiWords s.
Proof.
  intros H. apply (matches_from_fuel _ reAsciiWord_consuming); [exact H | lia].
Qed.

End KebabFacts.

(* ===================================================================== *)
(** ** Flattening a single-level configuration with dash-case keys        *)
(* ===================================================================== *)

Module FlatConfigProperties.
Import JS Lodash Style DashCase FlatConfig ObjFacts FlattenFacts KebabFacts.

Lemma valueFormatter_dash_case (key : string) (val : value) :
  is_dash_case key = true ->
  valueFormatter key val
  = Return (if key =? "constructor" then Object val else val).
Proof.
  intros Hd. unfold valueFormatter, throwing_members. cbn [mem existsb].
  repeat match goal with
         | |- context [key =? ?n] =>
             lazymatch n with
             | "constructor" => fail
             | _ => destruct (String.eqb_spec key n) as [->|_]; [discriminate Hd|]
             end
         end.
  destruct (key =? "constructor"); reflexivity.
Qed.

Lemma forEach_entry_flat (recur : value -> completion obj) (c : obj) :
  forall acc,
    flat_dash_case c = true ->
    List.NoDup (keys (acc ++ c)%list) ->
    forEach_entry recur c acc = Return (acc ++ map recorded c)%list.
Proof.
  induction c as [|[k v] c IH]; intros acc Hflat Hnd.
  - cbn. now rewrite app_nil_r.
  - cbn [flat_dash_case forallb fst snd] in Hflat.
    apply andb_true_iff in Hflat as [Hkv Hflat].
    apply andb_true_iff in Hkv as [Hk Hv].
    rewrite forEach_entry_cons, Hv, (valueFormatter_dash_case k v Hk),
      (kebabCase_dash_case k Hk).
    cbn [bind].
    assert (Hsplit : (acc ++ (k, v) :: c = (acc ++ [(k, v)]) ++ c)%list)
      by now rewrite <- app_assoc.
    assert (Hfresh : ~ In k (keys acc)).
    { rewrite Hsplit in Hnd. unfold keys in Hnd. rewrite !map_app in Hnd.
      apply List.NoDup_app_remove_r in Hnd. apply List.NoDup_remove_2 in Hnd.
      now rewrite app_nil_r in Hnd. }
    rewrite assign_fresh by exact Hfresh.
    rewrite IH; [now rewrite <- app_assoc | exact Hflat |].
    rewrite Hsplit in Hnd. unfold keys in *. rewrite !map_app in *. exact Hnd.
Qed.

Lemma keys_recorded (c : obj) : keys (map recorded c) = keys c.
Proof. unfold keys. rewrite map_map. reflexivity. Qed.

(** A configuration of leaves under distinct dash-case keys flattens to its
    recorded leaves under the prefixed keys, in order. *)
Lemma getCSSVariables_flat (c : obj) :
  flat_dash_case c = true -> List.NoDup (keys c) ->
  getCSSVariables (VObj c) = Return (prefixed (map recorded c)).
Proof.
  intros Hflat Hnd. unfold getCSSVariables.
  change (getNestedCSSVariables (VObj c)) with (forEach_entry getNestedCSSVariables c []).
  rewrite (forEach_entry_flat _ c [] Hflat Hnd). cbn [bind app]. f_equal.
  set (f := String.append (prefix ++ token)).
  change (mapKeys (map recorded c) (fun key => (prefix ++ token ++ key)%string))
    with (mapKeys (map recorded c) f).
  rewrite (mapKeys_injective f); [reflexivity | | now rewrite keys_recorded].
  intros a b. apply append_injective.
Qed.

Lemma recorded_id (c : obj) : ~ In "constructor" (keys c) -> map recorded c = c.
Proof.
  induction c as [|[k v] c IH]; intros Hnot; [reflexivity|].
  cbn [map]. rewrite IH by (intros H; apply Hnot; now right).
  unfold recorded. cbn [fst snd].
  destruct (String.eqb_spec k "constructor") as [->|_]; [|reflexivity].
  exfalso. apply Hnot. now left.
Qed.

Lemma substring_all (s : string) : String.substring 0 (String.length s) s = s.
Proof. induction s as [|c s IH]; cbn; [reflexivity | now rewrite IH]. Qed.

Lemma unprefixed_prefixed (c : obj) : unprefixed (prefixed c) = c.
Proof.
  unfold unprefixed, prefixed. rewrite map_map.
  rewrite <- (map_id c) at 2. apply map_ext. intros [k v]. cbn [fst snd].
  cbn [append String.length Nat.sub String.substring]. rewrite Nat.sub_0_r.
  now rewrite substring_all.
Qed.

(** C5.  On a single-level configuration of leaves under distinct dash-case
    keys, kebab-casing is a no-op on every key and the flattening returns
    the same keys, in order, each with ["--wp--"] in front; when no key is
    [constructor] the values are the same too, the result with the prefix
    stripped is the configuration, and flattening that again returns the
    same result. *)
Theorem getCSSVariables_flat_dash_case (c : obj) :
  flat_dash_case c = true -> List.NoDup (keys c) ->
  (forall k, In k (keys c) -> kebabCase k = k)
  /\ (exists r, getCSSVariables (VObj c) = Return r
                /\ keys r = map (String.append "--wp--") (keys c))
  /\ (~ In "constructor" (keys c) ->
      getCSSVariables (VObj c) = Return (prefixed c)
      /\ unprefixed (prefixed c) = c
      /\ getCSSVariables (VObj (unprefixed (prefixed c))) = Return (prefixed c)).
Proof.
  intros Hflat Hnd. split; [|split].
  - intros k Hin. apply kebabCase_dash_case.
    unfold flat_dash_case in Hflat. rewrite forallb_forall in Hflat.
    apply in_map_iff in Hin as (kv & <- & Hin).
    apply Hflat in Hin. now apply andb_true_iff in Hin as [Hk _].
  - exists (prefixed (map recorded c)). split; [now apply getCSSVariables_flat|].
    unfold prefixed, keys. rewrite !map_map. reflexivity.
  - intros Hnot.
    assert (Hrun : getCSSVariables (VObj c) = Return (prefixed c))
      by (rewrite (getCSSVariables_flat c Hflat Hnd); now rewrite recorded_id).
    split; [exact Hrun|]. split; [apply unprefixed_prefixed|].
    now rewrite unprefixed_prefixed.
Qed.

Lemma getCSSVariables_flat_dash_case_witness :
  kebabCase "line-height" = "line-height"
  /\ getCSSVariables (VObj [("line-height", VNum 2); ("color", VStr "red")])
     = Return [("--wp--line-height", VNum 2); ("--wp--color", VStr "red")].
Proof.
  assert (Hnd : List.NoDup (keys [("line-height", VNum 2); ("color", VStr "red")])).
  { repeat constructor; simpl; intuition discriminate. }
  destruct (getCSSVariables_flat_dash_case
              [("line-height", VNum 2); ("color", VStr "red")] eq_refl Hnd)
    as (Hkebab & _ & Hsame).
  split.
  - apply Hkebab. left. reflexivity.
  - apply Hsame. simpl. intuition discriminate.
Defined.

(** Applied to its own result, the flattening kebab-cases the prefixed key:
    [--wp--a] becomes [wp-a] and is recorded as [--wp--wp-a].  Applied to the
    result with the prefix stripped, it loses the key [constructor], whose
    leaf the first pass replaced by a wrapper object. *)
Lemma getCSSVariables_twice_counterexample :
  getCSSVariables (VObj [("a", VNum 1)]) = Return [("--wp--a", VNum 1)]
  /\ getCSSVariables (VObj [("--wp--a", VNum 1)]) = Return [("--wp--wp-a", VNum 1)]
  /\ keys (unprefixed [("--wp--wp-a", VNum 1)]) <> keys (unprefixed [("--wp--a", VNum 1)])
  /\ getCSSVariables (VObj [("constructor", VNum 1)])
     = Return [("--wp--constructor", VWrapper (VNum 1))]
  /\ getCSSVariables (VObj (unprefixed [("--wp--constructor", VWrapper (VNum 1))]))
     = Return [].
Proof. repeat split; try reflexivity. discriminate. Qed.

End FlatConfigProperties.

(* ===================================================================== *)
(** ** Properties of the block-registration filters                       *)
(* ===================================================================== *)

Module HookProperties.
Import JS Lodash Style ObjFacts.

Section Hooks.

Variables COLOR_SUPPORT_KEY LINE_HEIGHT_SUPPORT_KEY FONT_SIZE_SUPPORT_KEY : string.
Variable hasBlockSupport : value -> string -> bool.

Local Abbreviation hasStyleSupport :=
  (Style.hasStyleSupport COLOR_SUPPORT_KEY LINE_HEIGHT_SUPPORT_KEY FONT_SIZE_SUPPORT_KEY
     hasBlockSupport).
Local Abbreviation addAttribute :=
  (Style.addAttribute COLOR_SUPPORT_KEY LINE_HEIGHT_SUPPORT_KEY FONT_SIZE_SUPPORT_KEY
     hasBlockSupport).
Local Abbreviation addSaveProps :=
  (Style.addSaveProps COLOR_SUPPORT_KEY LINE_HEIGHT_SUPPORT_KEY FONT_SIZE_SUPPORT_KEY
     hasBlockSupport).
Local Abbreviation addEditProps :=
  (Style.addEditProps COLOR_SUPPORT_KEY LINE_HEIGHT_SUPPORT_KEY FONT_SIZE_SUPPORT_KEY
     hasBlockSupport).

Lemma addSaveProps_unsupported (props : loc) (blockType : settings) (attributes : value)
  (h : store) :
  hasStyleSupport blockType = false ->
  addSaveProps props blockType attributes h = Return (props, h).
Proof. intros H. unfold Style.addSaveProps. now rewrite H. Qed.

Lemma addSaveProps_supported (props : loc) (blockType : settings) (attributes : value)
  (h : store) (o : obj) (style : value) (variables : obj) :
  hasStyleSupport blockType = true ->
  h !! props = Some o ->
  destructure attributes "style" = Return style ->
  getCSSVariables style = Return variables ->
  addSaveProps props blockType attributes h
  = Return (props, <[props := assign o "style" (VObj (merged_style variables o))]> h).
Proof.
  intros Hs Ho Hd Hv. unfold Style.addSaveProps.
  rewrite Hs, Hd. cbn [negb bind]. rewrite Hv. cbn [bind]. now rewrite Ho.
Qed.

(** Whatever [addSaveProps] returns is the props location it was given, in a
    store that differs at most in the style of that object. *)
Lemma addSaveProps_returns (props : loc) (blockType : settings) (attributes : value)
  (h : store) (o : obj) (p' : loc) (h' : store) :
  h !! props = Some o ->
  addSaveProps props blockType attributes h = Return (p', h') ->
  p' = props /\
  (h' = h \/ exists variables,
      h' = <[props := assign o "style" (VObj (merged_style variables o))]> h).
Proof.
  intros Ho. unfold Style.addSaveProps.
  destruct (hasStyleSupport blockType); cbn [negb].
  - destruct (destructure attributes "style") as [style|]; cbn [bind]; [|discriminate].
    destruct (getCSSVariables style) as [variables|]; cbn [bind]; [|discriminate].
    rewrite Ho. intros [= <- <-]. split; [reflexivity|]. right. now exists variables.
  - intros [= <- <-]. split; [reflexivity | now left].
Qed.

Lemma read_assign_same (o : obj) (k : string) (v : value) :
  read (VObj (assign o k v)) k = v.
Proof. unfold read. cbn [own_entries]. now rewrite own_prop_assign, String.eqb_refl. Qed.

Lemma own_prop_assign_other (o : obj) (k k' : string) (v : value) :
  k <> k' -> own_prop k (assign o k' v) = own_prop k o.
Proof.
  intros Hne. rewrite own_prop_assign.
  destruct (String.eqb_spec k' k) as [->|_]; [congruence | reflexivity].
Qed.

(** What the merged style reads, key by key. *)
Lemma merged_style_reads (variables o : obj) (k : string) :
  List.NoDup (keys (own_entries (read (VObj o) "style"))) ->
  own_prop k (merged_style variables o)
  = match own_prop k (own_entries (read (VObj o) "style")) with
    | Some v => Some v
    | None => own_prop k variables
    end.
Proof.
  intros Hnd. unfold merged_style, spread.
  rewrite own_prop_assign_all, FlattenFacts.own_prop_rev by exact Hnd. reflexivity.
Qed.

(** C4.  For a block type that supports a style feature, when the style
    attribute flattens to [variables], [addSaveProps] returns the props with
    a style object in which every entry of the style the props came with is
    unchanged, and an entry of [variables] shows for the keys that style did
    not have. *)
Theorem addSaveProps_caller_style_wins (props : loc) (blockType : settings)
  (attributes : value) (h : store) (o : obj) (style : value) (variables : obj) :
  hasStyleSupport blockType = true ->
  h !! props = Some o ->
  List.NoDup (keys (own_entries (read (VObj o) "style"))) ->
  destructure attributes "style" = Return style ->
  getCSSVariables style = Return variables ->
  exists (h' : store) (o' merged : obj),
    addSaveProps props blockType attributes h = Return (props, h')
    /\ h' !! props = Some o'
    /\ read (VObj o') "style" = VObj merged
    /\ forall k,
        own_prop k merged
        = match own_prop k (own_entries (read (VObj o) "style")) with
          | Some v => Some v
          | None => own_prop k variables
          end.
Proof.
  intros Hs Ho Hnd Hd Hv.
  exists (<[props := assign o "style" (VObj (merged_style variables o))]> h),
    (assign o "style" (VObj (merged_style variables o))), (merged_style variables o).
  split; [exact (addSaveProps_supported _ _ _ _ _ _ _ Hs Ho Hd Hv)|].
  split; [apply list_lookup_insert_eq; now apply lookup_lt_Some in Ho|].
  split; [apply read_assign_same|].
  intros k. now apply merged_style_reads.
Qed.

(** C10.  [addSaveProps] returns the location of the props object it was
    given, allocates nothing, and leaves every other object and every field
    of the props object other than [style] as they were; for a block type
    without style support it returns with the store unchanged; for one with
    style support it returns whenever the style attribute flattens. *)
Theorem addSaveProps_frame (props : loc) (blockType : settings) (attributes : value)
  (h : store) (o : obj) :
  h !! props = Some o ->
  (hasStyleSupport blockType = false ->
   addSaveProps props blockType attributes h = Return (props, h))
  /\ (forall style variables,
         hasStyleSupport blockType = true ->
         destructure attributes "style" = Return style ->
         getCSSVariables style = Return variables ->
         exists h', addSaveProps props blockType attributes h = Return (props, h'))
  /\ (forall p' h',
         addSaveProps props blockType attributes h = Return (p', h') ->
         p' = props
         /\ List.length h' = List.length h
         /\ (forall l, l <> props -> h' !! l = h !! l)
         /\ exists o', h' !! props = Some o'
                       /\ forall k, k <> "style" -> own_prop k o' = own_prop k o).
Proof.
  intros Ho. split; [apply addSaveProps_unsupported|]. split.
  - intros style variables Hs Hd Hv. eexists.
    exact (addSaveProps_supported _ _ _ _ _ _ _ Hs Ho Hd Hv).
  - intros p' h' Hrun.
    destruct (addSaveProps_returns _ _ _ _ _ _ _ Ho Hrun) as [-> [->|[variables ->]]].
    + repeat split; try reflexivity. exists o. split; [exact Ho | reflexivity].
    + split; [reflexivity|]. split; [apply length_insert|].
      split; [intros l Hl; apply list_lookup_insert_ne; congruence|].
      eexists. split; [apply list_lookup_insert_eq; now apply lookup_lt_Some in Ho|].
      intros k Hk. now apply own_prop_assign_other.
Qed.

(** [addSaveProps] reads its block type through [supports] only, and
    [addEditProps] leaves [supports] as they are: the settings the installed
    function closes over answer as the settings it was installed on. *)
Lemma addSaveProps_supports (props : loc) (b1 b2 : settings) (attributes : value)
  (h : store) :
  supports b1 = supports b2 ->
  addSaveProps props b1 attributes h = addSaveProps props b2 attributes h.
Proof.
  intros H. unfold Style.addSaveProps, Style.hasStyleSupport. now rewrite H.
Qed.

Lemma addEditProps_supports (settings : settings) :
  supports (addEditProps settings) = supports settings.
Proof. unfold Style.addEditProps. now destruct (hasStyleSupport settings). Qed.

(** C7.  On settings that support a style feature, [addEditProps] installs a
    [getEditWrapperProps] that (with a previous function) calls the previous
    function on the attributes first, throws when it throws, and otherwise
    hands the props object it returned to [addSaveProps]: the object keeps
    every field but [style], and its style keeps every entry it had, the
    generated variables showing for the other keys; (without a previous
    function) hands [addSaveProps] a new empty object. *)
Theorem addEditProps_chains (settings : settings) :
  hasStyleSupport settings = true ->
  exists g : wrapperProps,
    getEditWrapperProps (addEditProps settings) = Some g
    /\ (forall existing,
           getEditWrapperProps settings = Some existing ->
           forall attributes h,
             (existing attributes h = Throw -> g attributes h = Throw)
             /\ forall props h1,
                 existing attributes h = Return (props, h1) ->
                 g attributes h
                 = addSaveProps props (addEditProps settings) attributes h1
                 /\ forall o style variables,
                     h1 !! props = Some o ->
                     List.NoDup (keys (own_entries (read (VObj o) "style"))) ->
                     destructure attributes "style" = Return style ->
                     getCSSVariables style = Return variables ->
                     exists (h2 : store) (o2 merged : obj),
                       g attributes h = Return (props, h2)
                       /\ h2 !! props = Some o2
                       /\ (forall k, k <> "style" -> own_prop k o2 = own_prop k o)
                       /\ read (VObj o2) "style" = VObj merged
                       /\ forall k,
                           own_prop k merged
                           = match own_prop k (own_entries (read (VObj o) "style")) with
                             | Some v => Some v
                             | None => own_prop k variables
                             end)
    /\ (getEditWrapperProps settings = None ->
        forall attributes h,
          g attributes h
          = addSaveProps (List.length h) (addEditProps settings) attributes
              (h ++ [[]])%list).
Proof.
  intros Hs.
  exists (editWrapperProps COLOR_SUPPORT_KEY LINE_HEIGHT_SUPPORT_KEY FONT_SIZE_SUPPORT_KEY
            hasBlockSupport settings (getEditWrapperProps settings)).
  split; [unfold Style.addEditProps; now rewrite Hs|]. split.
  - intros existing He attributes h. rewrite He. unfold editWrapperProps. split.
    + intros ->. reflexivity.
    + intros props h1 ->. cbn [bind fst snd].
      rewrite (addSaveProps_supports props (addEditProps settings) settings)
        by apply addEditProps_supports.
      split; [reflexivity|].
      intros o style variables Ho Hnd Hd Hv.
      rewrite (addSaveProps_supported _ _ _ _ _ _ _ Hs Ho Hd Hv).
      do 3 eexists. split; [reflexivity|].
      split; [apply list_lookup_insert_eq; now apply lookup_lt_Some in Ho|].
      split; [intros k Hk; now apply own_prop_assign_other|].
      split; [apply read_assign_same|].
      intros k. now apply merged_style_reads.
  - intros Hn attributes h. rewrite Hn. unfold editWrapperProps, alloc. cbn [bind fst snd].
    apply addSaveProps_supports. symmetry. apply addEditProps_supports.
Qed.

(** C6.  [addAttribute] returns settings without style support unchanged.
    On settings with style support the returned settings declare a [style]
    attribute; settings that already declare one (a declaration is an object,
    so truthy) are returned unchanged; where none is declared, the default
    [{ type: "object" }] is added after the declared attributes and nothing
    else changes. *)
Theorem addAttribute_declares_style (settings : settings) :
  (hasStyleSupport settings = false -> addAttribute settings = settings)
  /\ (hasStyleSupport settings = true ->
      (exists d, own_prop "style" (attributes (addAttribute settings)) = Some d
                 /\ truthy d = true)
      /\ (forall d, own_prop "style" (attributes settings) = Some d ->
                    truthy d = true -> addAttribute settings = settings)
      /\ (own_prop "style" (attributes settings) = None ->
          addAttribute settings
          = set_attributes settings
              (attributes settings ++ [("style", VObj [("type", VStr "object")])])%list)
      /\ (forall k, k <> "style" ->
                    own_prop k (attributes (addAttribute settings))
                    = own_prop k (attributes settings))
      /\ supports (addAttribute settings) = supports settings
      /\ getEditWrapperProps (addAttribute settings) = getEditWrapperProps settings
      /\ others (addAttribute settings) = others settings).
Proof.
  unfold Style.addAttribute, read. cbn [own_entries].
  destruct (hasStyleSupport settings); cbn [negb]; split; try discriminate;
    try reflexivity; intros _.
  destruct (own_prop "style" (attributes settings)) as [d|] eqn:Hd.
  - destruct (truthy d) eqn:Ht; cbn [negb].
    + repeat split; try reflexivity.
      * exists d. now split.
      * discriminate.
    + repeat split; try reflexivity.
      * eexists. cbn [set_attributes attributes Object_assign spread assign_all fold_left fst snd].
        rewrite own_prop_assign, String.eqb_refl. split; reflexivity.
      * intros d' [= <-] Ht'. congruence.
      * discriminate.
      * intros k Hk. cbn [set_attributes attributes Object_assign spread assign_all fold_left fst snd].
        now apply own_prop_assign_other.
  - cbn [truthy negb].
    assert (Hfresh : Object_assign (attributes settings)
                       [("style", VObj [("type", VStr "object")])]
                     = (attributes settings ++ [("style", VObj [("type", VStr "object")])])%list).
    { unfold Object_assign, spread, assign_all. cbn [fold_left fst snd].
      apply assign_fresh. now apply own_prop_None. }
    repeat split; try reflexivity.
    + eexists. cbn [set_attributes attributes Object_assign spread assign_all fold_left fst snd].
      rewrite own_prop_assign, String.eqb_refl. split; reflexivity.
    + discriminate.
    + intros _. now rewrite Hfresh.
    + intros k Hk. cbn [set_attributes attributes Object_assign spread assign_all fold_left fst snd].
      now apply own_prop_assign_other.
Qed.

End Hooks.

End HookProperties.

(** The filters at the example blocks. *)
Module HookWitnesses.
Import JS Lodash Style HookExamples HookProperties.

Local Abbreviation addSaveProps :=
  (Style.addSaveProps "__experimentalColor" "__experimentalLineHeight"
     "__experimentalFontSize" hasBlockSupport).
Local Abbreviation addEditProps :=
  (Style.addEditProps "__experimentalColor" "__experimentalLineHeight"
     "__experimentalFontSize" hasBlockSupport).
Local Abbreviation addAttribute :=
  (Style.addAttribute "__experimentalColor" "__experimentalLineHeight"
     "__experimentalFontSize" hasBlockSupport).

Lemma addSaveProps_caller_style_wins_witness :
  exists (h' : store) (o' merged : obj),
    addSaveProps 0 (color_block None) red_text [caller_props] = Return (0, h')
    /\ h' !! 0 = Some o'
    /\ read (VObj o') "style" = VObj merged
    /\ forall k,
        own_prop k merged
        = match own_prop k (own_entries (read (VObj caller_props) "style")) with
          | Some v => Some v
          | None => own_prop k red_variables
          end.
Proof.
  apply (addSaveProps_caller_style_wins "__experimentalColor" "__experimentalLineHeight"
           "__experimentalFontSize" hasBlockSupport 0 (color_block None) red_text
           [caller_props] caller_props
           (VObj [("color", VObj [("text", VStr "red"); ("background", VStr "white")])])
           red_variables).
  - reflexivity.
  - reflexivity.
  - repeat constructor. simpl. tauto.
  - reflexivity.
  - reflexivity.
Defined.

Lemma addSaveProps_frame_witness :
  addSaveProps 0 plain_block red_text [caller_props] = Return (0, [caller_props])
  /\ exists h', addSaveProps 0 (color_block None) red_text [caller_props] = Return (0, h').
Proof.
  destruct (addSaveProps_frame "__experimentalColor" "__experimentalLineHeight"
              "__experimentalFontSize" hasBlockSupport 0 plain_block red_text
              [caller_props] caller_props eq_refl) as [Hplain _].
  destruct (addSaveProps_frame "__experimentalColor" "__experimentalLineHeight"
              "__experimentalFontSize" hasBlockSupport 0 (color_block None) red_text
              [caller_props] caller_props eq_refl) as (_ & Hcolor & _).
  split.
  - apply Hplain. reflexivity.
  - apply (Hcolor (VObj [("color", VObj [("text", VStr "red"); ("background", VStr "white")])])
             red_variables); reflexivity.
Defined.

Lemma addEditProps_chains_witness :
  exists g : wrapperProps,
    getEditWrapperProps (addEditProps (color_block (Some existing_props))) = Some g
    /\ g red_text []
       = Return (0, [[("className", VStr "wide");
                      ("style", VObj [("--wp--color--text", VStr "blue");
                                      ("--wp--color--background", VStr "white")])]]).
Proof.
  destruct (addEditProps_chains "__experimentalColor" "__experimentalLineHeight"
              "__experimentalFontSize" hasBlockSupport (color_block (Some existing_props))
              eq_refl) as (g & Hg & Hprev & _).
  exists g. split; [exact Hg|].
  destruct (Hprev existing_props eq_refl red_text []) as [_ Hret].
  destruct (Hret 0 [caller_props] eq_refl) as [-> _].
  reflexivity.
Defined.

Lemma addAttribute_declares_style_witness :
  addAttribute plain_block = plain_block
  /\ addAttribute (color_block None)
     = set_attributes (color_block None)
         [("content", VObj [("type", VStr "string")]);
          ("style", VObj [("type", VStr "object")])].
Proof.
  split.
  - apply (proj1 (addAttribute_declares_style "__experimentalColor"
                    "__experimentalLineHeight" "__experimentalFontSize" hasBlockSupport
                    plain_block)).
    reflexivity.
  - destruct (proj2 (addAttribute_declares_style "__experimentalColor"
                       "__experimentalLineHeight" "__experimentalFontSize" hasBlockSupport
                       (color_block None)) eq_refl) as (_ & _ & Hnew & _).
    apply Hnew. reflexivity.
Defined.

End HookWitnesses.

(* ===================================================================== *)
(** ** Properties of the enable-item selectors                            *)
(* ===================================================================== *)

Module EnableItemsProperties.
Import JS Lodash EnableItems EnableItemsExamples.

Lemma get_no_default (object : value) (path : list string) :
  get object path None = baseGet object path.
Proof.
  unfold get. destruct (baseGet object path) as [[[| | | | | |]| | |]| |]; reflexivity.
Qed.

Lemma baseGet_loop_object (o : obj) (k : string) (path : list string) :
  baseGet_loop (Value (VObj o)) (k :: path)
  = match member (Value (VObj o)) k with
    | Returns next => baseGet_loop next path
    | Throws => Throws
    | Unfollowed => Unfollowed
    end.
Proof. reflexivity. Qed.

Lemma member_own (o : obj) (k : string) (x : value) :
  own_prop k o = Some x -> member (Value (VObj o)) k = Returns (Value x).
Proof. intros H. cbn [member]. now rewrite H. Qed.

Lemma member_inherited (o : obj) (k : string) :
  own_prop k o = None ->
  member (Value (VObj o)) k
  = if mem k object_methods then Returns Method
    else if k =? "__proto__" then Returns ObjectPrototype
    else Returns (Value VUndefined).
Proof. intros H. cbn [member]. now rewrite H. Qed.

(** The last step of the path: whatever the scope holds, reading the item
    returns, and the result is [true] only for an own property [true]. *)
Lemma last_step (V : value) (item : string) :
  match baseGet_loop (Value V) [item] with
  | Returns x => Returns (strictly_true x)
  | Throws => Throws
  | Unfollowed => Unfollowed
  end = Returns (stored_true V [item]).
Proof.
  unfold stored_true. cbn [stored_at].
  destruct V as [| |b|n|s|items|p]; try reflexivity.
  - cbn [baseGet_loop member own_entries].
    destruct (own_prop item (index_entries 0 s)) as [x|]; [|reflexivity].
    destruct x as [| |[|]| | | |]; reflexivity.
  - rewrite baseGet_loop_object. cbn [own_entries].
    destruct (own_prop item items) as [x|] eqn:Hx.
    + rewrite (member_own _ _ _ Hx). destruct x as [| |[|]| | | |]; reflexivity.
    + rewrite (member_inherited _ _ Hx).
      destruct (mem item object_methods); [reflexivity|].
      destruct (item =? "__proto__"); reflexivity.
  - cbn [baseGet_loop member].
    destruct (own_prop item (own_entries (VWrapper p))) as [x|]; [|reflexivity].
    destruct x as [| |[|]| | | |]; reflexivity.
Qed.

(** Where [pinnedItems] holds an object of scopes, [isItemPinned] answers
    whether [true] is stored under [pinnedItems/scope/item], except for a
    scope that is absent and names a function of [Object.prototype] with an
    item [caller] or [arguments], where it throws. *)
Lemma isItemPinned_scopes (state : EnableItems.state) (top scopes : obj)
  (scope item : string) :
  multipleEnableItems (enableItems state) = VObj top ->
  own_prop "pinnedItems" top = Some (VObj scopes) ->
  isItemPinned state scope item =
  match own_prop scope scopes with
  | None =>
      if mem scope object_methods && mem item restricted then Throws
      else Returns false
  | Some _ =>
      Returns (stored_true (multipleEnableItems (enableItems state))
                 ["pinnedItems"; scope; item])
  end.
Proof.
  intros Hmei Hpinned.
  unfold isItemPinned, isMultipleEnabledItemEnabled. rewrite get_no_default, Hmei.
  unfold baseGet, stored_true.
  rewrite baseGet_loop_object, (member_own _ _ _ Hpinned), baseGet_loop_object.
  cbn [stored_at own_entries]. rewrite Hpinned. cbn [own_entries].
  destruct (own_prop scope scopes) as [V|] eqn:Hs.
  - rewrite (member_own _ _ _ Hs). apply last_step.
  - rewrite (member_inherited _ _ Hs).
    destruct (mem scope object_methods); cbn [andb].
    + cbn [baseGet_loop member]. destruct (mem item restricted); reflexivity.
    + destruct (scope =? "__proto__"); [|reflexivity].
      cbn [baseGet_loop member].
      destruct (mem item object_methods); [reflexivity|].
      destruct (item =? "__proto__"); reflexivity.
Qed.

(** Without [pinnedItems] nothing is pinned. *)
Lemma isItemPinned_no_pinnedItems (state : EnableItems.state) (top : obj)
  (scope item : string) :
  multipleEnableItems (enableItems state) = VObj top ->
  own_prop "pinnedItems" top = None ->
  isItemPinned state scope item = Returns false.
Proof.
  intros Hmei Hpinned.
  unfold isItemPinned, isMultipleEnabledItemEnabled. rewrite get_no_default, Hmei.
  unfold baseGet. rewrite baseGet_loop_object, (member_inherited _ _ Hpinned).
  reflexivity.
Qed.

(** C8, at the inputs where the code leaves the claim: [get] follows the
    prototype chain, so for the scope [constructor], absent from the pinned
    items, it reads the function [Object], and reading [caller] from it
    throws where the claim says [false].  On a path of own properties the
    selector answers as claimed: [true] for a stored [true], [false] for any
    other stored value and for an absent scope or item. *)
Theorem isItemPinned_inherited_scope :
  isItemPinned pinned_state "constructor" "caller" = Throws
  /\ isItemPinned pinned_state "toString" "arguments" = Throws
  /\ isItemPinned pinned_state "core/edit-post" "plugin-a" = Returns true
  /\ isItemPinned pinned_state "core/edit-post" "plugin-b" = Returns false
  /\ isItemPinned pinned_state "core/edit-post" "plugin-c" = Returns false
  /\ isItemPinned pinned_state "core/edit-site" "plugin-a" = Returns false.
Proof. repeat split; reflexivity. Qed.

End EnableItemsProperties.

(* ===================================================================== *)
(** ** Properties of the navigation structure panel                       *)
(* ===================================================================== *)

Module NavigationPanelProperties.
Import NavigationPanel.

(** C9.  The component always returns the panel with its body titled
    "Navigation structure".  For an empty sequence of blocks the body holds
    nothing; otherwise it holds a toolbar and a block navigation list of the
    blocks, with nested blocks shown and an appender, whose selected client
    id is the first of the store's selected client ids (none when the store
    has none). *)
Theorem NavigationStructurePanel_renders (block clientId action : Type)
  (translate : string -> string) (selectedBlockClientIds : list clientId)
  (selectBlock : action) (blocks : list block) :
  (blocks = [] ->
   NavigationStructurePanel translate selectedBlockClientIds selectBlock blocks
   = Panel [PanelBody (translate "Navigation structure") [Nothing]])
  /\ (blocks <> [] ->
      NavigationStructurePanel translate selectedBlockClientIds selectBlock blocks
      = Panel [PanelBody (translate "Navigation structure")
                 [Fragment
                    [BlockNavigationToolbar;
                     BlockNavigationList blocks (head selectedBlockClientIds)
                       selectBlock true true]]]).
Proof.
  split.
  - intros ->. reflexivity.
  - intros Hne. destruct blocks as [|b blocks]; [contradiction | reflexivity].
Qed.

Lemma NavigationStructurePanel_renders_witness :
  NavigationStructurePanel (fun s => s) ["b2"; "b1"] tt ["b1"; "b2"; "b3"]
  = Panel [PanelBody "Navigation structure"
             [Fragment
                [BlockNavigationToolbar;
                 BlockNavigationList ["b1"; "b2"; "b3"] (Some "b2") tt true true]]]
  /\ NavigationStructurePanel (block := string) (fun s => s) ["b2"; "b1"] tt []
     = Panel [PanelBody "Navigation structure" [Nothing]].
Proof.
  split.
  - apply (proj2 (NavigationStructurePanel_renders string string unit (fun s => s)
                    ["b2"; "b1"] tt ["b1"; "b2"; "b3"])).
    discriminate.
  - apply (proj1 (NavigationStructurePanel_renders string string unit (fun s => s)
                    ["b2"; "b1"] tt [])).
    reflexivity.
Defined.

(** With no blocks the component still renders the panel and its titled
    body, which is not nothing. *)
Lemma NavigationStructurePanel_empty_counterexample :
  NavigationStructurePanel (block := string) (clientId := string) (fun s => s) [] tt []
  = Panel [PanelBody "Navigation structure" [Nothing]]
  /\ Panel (block := string) (clientId := string) (action := unit)
       [PanelBody "Navigation structure" [Nothing]] <> Nothing.
Proof. split; [reflexivity | discriminate]. Qed.

End NavigationPanelProperties.

(* ===================================================================== *)
(** ** Further properties of [getCSSVariables]                            *)
(* ===================================================================== *)

Module FlattenMore.
Import JS Lodash Style Leaves ObjFacts FlattenFacts.

(** The value of a leaf is never an object. *)
Lemma entry_leaves_values (lrecur : value -> list leaf) (es : obj) :
  Forall (fun kv => forall l, In l (lrecur (snd kv)) -> isObject (snd (snd l)) = false) es ->
  forall l, In l (entry_leaves lrecur es) -> isObject (snd (snd l)) = false.
Proof.
  induction 1 as [|[key val] es Hhead _ IH]; intros l Hl; [contradiction|].
  rewrite entry_leaves_cons in Hl. apply in_app_or in Hl as [Hl|Hl]; [|now apply IH].
  cbn [snd] in Hhead. destruct (isObject val) eqn:Hobj.
  - apply in_map_iff in Hl as (l0 & <- & Hl0). cbn [snd]. now apply Hhead.
  - destruct Hl as [<-|[]]. exact Hobj.
Qed.

Lemma flat_leaves_values (config : value) :
  forall l, In l (flat_leaves config) -> isObject (snd (snd l)) = false.
Proof.
  induction config as [| | | | |fields IH|p _] using value_fields_ind.
  1-5,7:
    (match goal with
     | |- forall l, In l (flat_leaves ?c) -> _ =>
         destruct (getNestedCSSVariables_other c) as [_ Hl]; [intros ? [=]|]
     end;
     rewrite Hl; apply entry_leaves_values;
     apply Forall_forall; intros kv _ l []).
  change (flat_leaves (VObj fields)) with (entry_leaves flat_leaves fields).
  apply entry_leaves_values. exact IH.
Qed.

(** On a leaf, the formatter throws exactly for the keys that name a
    throwing member of [Object.prototype]. *)
Lemma throws_on_members (name key : string) (v : value) :
  isObject v = false ->
  throws_on (name, (key, v)) = mem key throwing_members.
Proof.
  intros Hv. unfold throws_on, valueFormatter. cbn [fst snd]. rewrite Hv.
  destruct (String.eqb_spec key "fontSize") as [->|_]; [reflexivity|].
  destruct (String.eqb_spec key "constructor") as [->|_]; [reflexivity|].
  destruct (String.eqb_spec key "toString") as [->|_]; [reflexivity|].
  destruct (String.eqb_spec key "isPrototypeOf") as [->|_]; [reflexivity|].
  destruct (mem key throwing_members); reflexivity.
Qed.

(** The flattening throws exactly for a leaf under a throwing key. *)
Lemma getCSSVariables_throws_leaf (styles : value) :
  getCSSVariables styles = Throw <->
  exists name key v,
    In (name, (key, v)) (css_leaves styles) /\ mem key throwing_members = true.
Proof.
  split.
  - intros Hthrow.
    destruct (existsb throws_on (css_leaves styles)) eqn:Hex.
    + apply existsb_exists in Hex as ([name [key v]] & Hin & Ht).
      exists name, key, v. split; [exact Hin|].
      rewrite <- (throws_on_members name key v); [exact Ht|].
      unfold css_leaves in Hin. apply in_map_iff in Hin as (l0 & Heq & Hl0).
      apply flat_leaves_values in Hl0. destruct l0 as [n0 [k0 v0]].
      now injection Heq as _ <- <-.
    + destruct (getCSSVariables_returns styles) as [r Hr]; [|congruence].
      intros l Hl. destruct (throws_on l) eqn:Ht; [|reflexivity].
      assert (Hsome : existsb throws_on (css_leaves styles) = true)
        by (apply existsb_exists; eauto).
      congruence.
  - intros (name & key & v & Hin & Hmem).
    destruct (getCSSVariables styles) as [r|] eqn:Hrun; [|reflexivity].
    pose proof (getCSSVariables_no_throw styles r Hrun _ Hin) as Ht.
    rewrite throws_on_members in Ht; [congruence|].
    unfold css_leaves in Hin. apply in_map_iff in Hin as (l0 & Heq & Hl0).
    apply flat_leaves_values in Hl0. destruct l0 as [n0 [k0 v0]].
    now injection Heq as _ <- <-.
Qed.

(** X1.  [getCSSVariables] throws exactly when some leaf of the
    configuration, at any depth, sits under a key that names a throwing
    member of [Object.prototype]; otherwise it returns. *)
Theorem getCSSVariables_throws_iff (styles : value) :
  getCSSVariables styles = Throw <->
  exists name key v,
    In (name, (key, v)) (css_leaves styles) /\ mem key throwing_members = true.
Proof. apply getCSSVariables_throws_leaf. Qed.



Lemma leaf_at_nonempty (config : value) (path : list string) (v : value) :
  leaf_at config path v -> path <> [].
Proof. destruct 1; discriminate. Qed.

(** A leaf reached by a path is a leaf of the walk, named by the path. *)
Lemma leaf_at_flat_leaves (config : value) (path : list string) (v : value) :
  leaf_at config path v ->
  In (join_names path, (leaf_key path, v)) (flat_leaves config).
Proof.
  induction 1 as [fields k v Hin Hleaf|fields sub k path v Hin Hsub IH].
  - change (flat_leaves (VObj fields)) with (entry_leaves flat_leaves fields).
    now apply In_entry_leaves_leaf.
  - change (flat_leaves (VObj fields)) with (entry_leaves flat_leaves fields).
    pose proof (leaf_at_nonempty _ _ _ Hsub) as Hne.
    destruct path as [|k' path']; [contradiction|].
    change (join_names (k :: k' :: path'))
      with (kebabCase k ++ token ++ join_names (k' :: path'))%string.
    change (leaf_key (k :: k' :: path')) with (leaf_key (k' :: path')).
    exact (In_entry_leaves_nested flat_leaves fields k (VObj sub)
             (join_names (k' :: path'), (leaf_key (k' :: path'), v))
             Hin eq_refl IH).
Qed.

(** X3.  When [getCSSVariables] returns, a leaf reached by a path of keys of
    any length is recorded under ["--wp--"] followed by the kebab-cased keys
    of the path joined by ["--"], with the result of the formatter of its
    own key, provided no other leaf is given that name. *)
Theorem getCSSVariables_leaf_at (config : value) (path : list string) (v : value)
  (r : obj) :
  getCSSVariables config = Return r ->
  leaf_at config path v ->
  (forall kv, In (("--wp--" ++ join_names path)%string, kv) (css_leaves config) ->
              kv = (leaf_key path, v)) ->
  exists fv, valueFormatter (leaf_key path) v = Return fv
             /\ own_prop ("--wp--" ++ join_names path) r = Some fv.
Proof.
  intros Hrun Hleaf Huniq.
  assert (Hin : In (("--wp--" ++ join_names path)%string, (leaf_key path, v))
                  (css_leaves config)).
  { unfold css_leaves. apply in_map_iff.
    exists (join_names path, (leaf_key path, v)). split; [reflexivity|].
    replace (match config with VUndefined => VObj [] | _ => config end) with config
      by (inversion Hleaf; reflexivity).
    now apply leaf_at_flat_leaves. }
  pose proof (getCSSVariables_no_throw config r Hrun _ Hin) as Ht.
  unfold throws_on in Ht. cbn [fst snd] in Ht.
  destruct (valueFormatter (leaf_key path) v) as [fv|] eqn:Hfmt; [|discriminate].
  exists fv. split; [reflexivity|].
  rewrite (holds_unique r _ _ (leaf_key path, v) (getCSSVariables_holds _ _ Hrun) Hin Huniq).
  unfold formatted. cbn [fst snd]. now rewrite Hfmt.
Qed.

Lemma getCSSVariables_leaf_at_witness :
  exists fv, valueFormatter "fontSize" (VNum 16) = Return fv
             /\ own_prop "--wp--typography--heading--font-size"
                  [("--wp--typography--heading--font-size", VStr "16px");
                   ("--wp--color", VStr "red")] = Some fv.
Proof.
  apply (getCSSVariables_leaf_at
           (VObj [("typography", VObj [("heading", VObj [("fontSize", VNum 16)])]);
                  ("color", VStr "red")])
           ["typography"; "heading"; "fontSize"] (VNum 16)).
  - reflexivity.
  - apply leaf_below with (sub := [("heading", VObj [("fontSize", VNum 16)])]);
      [left; reflexivity|].
    apply leaf_below with (sub := [("fontSize", VNum 16)]); [left; reflexivity|].
    apply leaf_here; [left; reflexivity | reflexivity].
  - intros kv [H|[H|[]]]; [now injection H as <- | discriminate H].
Defined.

End FlattenMore.

(* ===================================================================== *)
(** ** Further properties of the block-registration filters               *)
(* ===================================================================== *)

Module HookMore.
Import JS Lodash Style Leaves ObjFacts FlattenFacts HookProperties.

Section Hooks.

Variables COLOR_SUPPORT_KEY LINE_HEIGHT_SUPPORT_KEY FONT_SIZE_SUPPORT_KEY : string.
Variable hasBlockSupport : value -> string -> bool.

Local Abbreviation hasStyleSupport :=
  (Style.hasStyleSupport COLOR_SUPPORT_KEY LINE_HEIGHT_SUPPORT_KEY FONT_SIZE_SUPPORT_KEY
     hasBlockSupport).
Local Abbreviation addAttribute :=
  (Style.addAttribute COLOR_SUPPORT_KEY LINE_HEIGHT_SUPPORT_KEY FONT_SIZE_SUPPORT_KEY
     hasBlockSupport).
Local Abbreviation addSaveProps :=
  (Style.addSaveProps COLOR_SUPPORT_KEY LINE_HEIGHT_SUPPORT_KEY FONT_SIZE_SUPPORT_KEY
     hasBlockSupport).
Local Abbreviation addEditProps :=
  (Style.addEditProps COLOR_SUPPORT_KEY LINE_HEIGHT_SUPPORT_KEY FONT_SIZE_SUPPORT_KEY
     hasBlockSupport).

Lemma addAttribute_supports (settings : settings) :
  hasStyleSupport (addAttribute settings) = hasStyleSupport settings.
Proof.
  unfold Style.addAttribute.
  destruct (hasStyleSupport settings) eqn:Hs; cbn [negb]; [|exact Hs].
  destruct (negb _); exact Hs.
Qed.

Lemma addAttribute_style_truthy (settings : settings) :
  hasStyleSupport settings = true ->
  truthy (read (VObj (attributes (addAttribute settings))) "style") = true.
Proof.
  intros Hs. unfold Style.addAttribute. rewrite Hs. cbn [negb].
  destruct (truthy (read (VObj (attributes settings)) "style")) eqn:Ht; cbn [negb].
  - exact Ht.
  - cbn [set_attributes attributes]. unfold Object_assign, spread, assign_all.
    cbn [fold_left fst snd]. now rewrite read_assign_same.
Qed.

(** X4.  [addAttribute] is idempotent: applied to its own result it changes
    nothing, whatever the settings. *)
Theorem addAttribute_idempotent (settings : settings) :
  addAttribute (addAttribute settings) = addAttribute settings.
Proof.
  pose proof (addAttribute_supports settings) as Hsame.
  pose proof (addAttribute_style_truthy settings) as Htruthy.
  set (once := addAttribute settings) in *.
  unfold Style.addAttribute at 1. rewrite Hsame.
  destruct (hasStyleSupport settings); cbn [negb]; [|reflexivity].
  now rewrite Htruthy.
Qed.

(** X5.  For a props object in the store, [addSaveProps] throws exactly
    when the block type supports a style feature and either the attributes
    are [null] or [undefined] or a leaf of the style attribute sits under a
    key that names a throwing member of [Object.prototype]; for a block type
    without style support it returns whatever the attributes are. *)
Theorem addSaveProps_throws_iff (props : loc) (blockType : settings)
  (attributes : value) (h : store) (o : obj) :
  h !! props = Some o ->
  (addSaveProps props blockType attributes h = Throw <->
   hasStyleSupport blockType = true
   /\ (attributes = VUndefined \/ attributes = VNull
       \/ exists name key v,
           In (name, (key, v)) (css_leaves (read attributes "style"))
           /\ mem key throwing_members = true)).
Proof.
  intros Ho. unfold Style.addSaveProps.
  destruct (hasStyleSupport blockType); cbn [negb];
    [|split; [discriminate | intros [[=] _]]].
  assert (Hflat : forall style,
             (match getCSSVariables style with
              | Return variables =>
                  match h !! props with
                  | Some o0 =>
                      Return (props,
                              <[props := assign o0 "style"
                                           (VObj (merged_style variables o0))]> h)
                  | None => Throw
                  end
              | Throw => Throw
              end = Throw)
             <-> getCSSVariables style = Throw).
  { intros style. destruct (getCSSVariables style); [|tauto].
    rewrite Ho. split; discriminate. }
  destruct attributes; cbn [destructure bind].
  1,2: (split; [intros _; split; [reflexivity | tauto] | reflexivity]).
  all: (unfold bind; rewrite Hflat, FlattenMore.getCSSVariables_throws_leaf;
        split; [intros H; split; [reflexivity | now right; right]
               | intros [_ [[=]|[[=]|H]]]; exact H]).
Qed.

(** X6.  [addSaveProps] is idempotent on the style it assigns: run again on
    its own result, it returns the same props object with every field as
    the first run left it and every style entry unchanged. *)
Theorem addSaveProps_idempotent (props : loc) (blockType : settings)
  (attributes : value) (h : store) (o : obj) (style : value) (variables : obj) :
  hasStyleSupport blockType = true ->
  h !! props = Some o ->
  List.NoDup (keys (own_entries (read (VObj o) "style"))) ->
  destructure attributes "style" = Return style ->
  getCSSVariables style = Return variables ->
  exists (h1 h2 : store) (o1 o2 : obj),
    addSaveProps props blockType attributes h = Return (props, h1)
    /\ addSaveProps props blockType attributes h1 = Return (props, h2)
    /\ h1 !! props = Some o1 /\ h2 !! props = Some o2
    /\ (forall k, k <> "style" -> own_prop k o2 = own_prop k o1)
    /\ (forall k,
           own_prop k (own_entries (read (VObj o2) "style"))
           = own_prop k (own_entries (read (VObj o1) "style"))).
Proof.
  intros Hs Ho Hnd Hd Hv.
  set (o1 := assign o "style" (VObj (merged_style variables o))).
  set (h1 := <[props := o1]> h).
  assert (Hlt : props < List.length h) by now apply lookup_lt_Some in Ho.
  assert (Ho1 : h1 !! props = Some o1) by now apply list_lookup_insert_eq.
  set (o2 := assign o1 "style" (VObj (merged_style variables o1))).
  exists h1, (<[props := o2]> h1), o1, o2.
  split; [exact (addSaveProps_supported _ _ _ _ _ blockType attributes h o style
                   variables Hs Ho Hd Hv)|].
  split; [exact (addSaveProps_supported _ _ _ _ _ blockType attributes h1 o1 style
                   variables Hs Ho1 Hd Hv)|].
  split; [exact Ho1|].
  split; [apply list_lookup_insert_eq; unfold h1; now rewrite length_insert|].
  split; [intros k Hk; now apply own_prop_assign_other|].
  intros k. unfold o2. rewrite read_assign_same. cbn [own_entries].
  assert (Hnd1 : List.NoDup (keys (own_entries (read (VObj o1) "style")))).
  { unfold o1. rewrite read_assign_same. cbn [own_entries].
    apply NoDup_assign_all. now destruct (getCSSVariables_holds _ _ Hv). }
  rewrite (merged_style_reads variables o1 k Hnd1).
  destruct (own_prop k (own_entries (read (VObj o1) "style"))) as [x|] eqn:Hk;
    [reflexivity|].
  unfold o1 in Hk. rewrite read_assign_same in Hk. cbn [own_entries] in Hk.
  rewrite (merged_style_reads variables o k Hnd) in Hk.
  now destruct (own_prop k (own_entries (read (VObj o) "style"))).
Qed.

(** X7.  On settings that support a style feature and carry no
    [getEditWrapperProps], the function that [addEditProps] installs
    allocates one new props object, whose only field is [style] holding the
    generated variables, and leaves the store it was given as it is. *)
Theorem addEditProps_fresh_props (settings : settings) (attributes : value)
  (h : store) (style : value) (variables : obj) :
  hasStyleSupport settings = true ->
  getEditWrapperProps settings = None ->
  destructure attributes "style" = Return style ->
  getCSSVariables style = Return variables ->
  exists g : wrapperProps,
    getEditWrapperProps (addEditProps settings) = Some g
    /\ g attributes h
       = Return (List.length h, (h ++ [[("style", VObj variables)]])%list).
Proof.
  intros Hs Hn Hd Hv.
  exists (editWrapperProps COLOR_SUPPORT_KEY LINE_HEIGHT_SUPPORT_KEY FONT_SIZE_SUPPORT_KEY
            hasBlockSupport settings (getEditWrapperProps settings)).
  split; [unfold Style.addEditProps; now rewrite Hs|].
  rewrite Hn.
  assert (Hnew : (h ++ [[]])%list !! List.length h = Some (@nil (string * value))).
  { now apply list_lookup_middle. }
  transitivity (addSaveProps (List.length h) settings attributes (h ++ [[]])%list);
    [reflexivity|].
  rewrite (addSaveProps_supported _ _ _ _ _ settings attributes _ _ style variables
             Hs Hnew Hd Hv).
  do 2 f_equal.
  rewrite insert_app_r_alt by apply Nat.le_refl. rewrite Nat.sub_diag. reflexivity.
Qed.

End Hooks.

End HookMore.

Module HookMoreWitnesses.
Import JS Lodash Style HookExamples HookMore.

Local Abbreviation addSaveProps :=
  (Style.addSaveProps "__experimentalColor" "__experimentalLineHeight"
     "__experimentalFontSize" hasBlockSupport).
Local Abbreviation addEditProps :=
  (Style.addEditProps "__experimentalColor" "__experimentalLineHeight"
     "__experimentalFontSize" hasBlockSupport).

Lemma addSaveProps_throws_iff_witness :
  addSaveProps 0 (color_block None) (VObj [("style", VObj [("valueOf", VNum 1)])])
    [caller_props] = Throw.
Proof.
  apply (proj2 (addSaveProps_throws_iff "__experimentalColor" "__experimentalLineHeight"
                  "__experimentalFontSize" hasBlockSupport 0 (color_block None)
                  (VObj [("style", VObj [("valueOf", VNum 1)])])
                  [caller_props] caller_props eq_refl)).
  split; [reflexivity|]. right; right.
  exists "--wp--value-of", "valueOf", (VNum 1).
  split; [left; reflexivity | reflexivity].
Defined.

Lemma addSaveProps_idempotent_witness :
  exists (h1 h2 : store) (o1 o2 : obj),
    addSaveProps 0 (color_block None) red_text [caller_props] = Return (0, h1)
    /\ addSaveProps 0 (color_block None) red_text h1 = Return (0, h2)
    /\ h1 !! 0 = Some o1 /\ h2 !! 0 = Some o2
    /\ (forall k, k <> "style" -> own_prop k o2 = own_prop k o1)
    /\ (forall k,
           own_prop k (own_entries (read (VObj o2) "style"))
           = own_prop k (own_entries (read (VObj o1) "style"))).
Proof.
  apply (addSaveProps_idempotent "__experimentalColor" "__experimentalLineHeight"
           "__experimentalFontSize" hasBlockSupport 0 (color_block None) red_text
           [caller_props] caller_props
           (VObj [("color", VObj [("text", VStr "red"); ("background", VStr "white")])])
           red_variables).
  - reflexivity.
  - reflexivity.
  - repeat constructor. simpl. tauto.
  - reflexivity.
  - reflexivity.
Defined.

Lemma addEditProps_fresh_props_witness :
  exists g : wrapperProps,
    getEditWrapperProps (addEditProps (color_block None)) = Some g
    /\ g red_text [] = Return (0, [[("style", VObj red_variables)]]).
Proof.
  apply (addEditProps_fresh_props "__experimentalColor" "__experimentalLineHeight"
           "__experimentalFontSize" hasBlockSupport (color_block None) red_text []
           (VObj [("color", VObj [("text", VStr "red"); ("background", VStr "white")])])
           red_variables).
  - reflexivity.
  - reflexivity.
  - reflexivity.
  - reflexivity.
Defined.

End HookMoreWitnesses.

(* ===================================================================== *)
(** ** Further properties of the enable-item selectors                    *)
(* ===================================================================== *)

Module SelectorsMore.
Import JS Lodash EnableItems EnableItemsExamples EnableItemsProperties.

(** On a walk that stays within the state, the path reads what is stored
    under it, and [=== true] answers whether that is [true]. *)
Lemma baseGet_loop_plain (path : list string) :
  forall v,
    path <> [] -> plain_walk v path = true ->
    match baseGet_loop (Value v) path with
    | Returns x => Returns (strictly_true x)
    | Throws => Throws
    | Unfollowed => Unfollowed
    end = Returns (stored_true v path).
Proof.
  induction path as [|k path IH]; intros v Hne Hplain; [contradiction|].
  destruct path as [|k' path]; [apply last_step|].
  assert (Hnext : k' :: path <> []) by discriminate.
  change (plain_walk v (k :: k' :: path))
    with (match v with
          | VNull | VUndefined => true
          | VObj o =>
              match own_prop k o with
              | Some x => plain_walk x (k' :: path)
              | None => negb (mem k object_methods || (k =? "__proto__"))
              end
          | _ => false
          end) in Hplain.
  destruct v as [| |b|n|s|o|p]; try discriminate Hplain; try reflexivity.
  rewrite baseGet_loop_object. unfold stored_true.
  change (stored_at (VObj o) (k :: k' :: path))
    with (match own_prop k o with
          | Some x => stored_at x (k' :: path)
          | None => None
          end).
  destruct (own_prop k o) as [x|] eqn:Hx.
  - rewrite (member_own _ _ _ Hx). exact (IH x Hnext Hplain).
  - rewrite (member_inherited _ _ Hx).
    apply negb_true_iff, orb_false_iff in Hplain as [Hm Hp].
    rewrite Hm, Hp. reflexivity.
Qed.

(** X8.  On a walk that stays within the state (every key read from a plain
    object, no absent key before the last naming a member of
    [Object.prototype]), [isMultipleEnabledItemEnabled] returns, and its
    answer is whether [true] itself is stored under the own-property path
    [itemType/scope/item]: a missing step, a value other than [true]
    (truthy or not) and an inherited member under the last key all read as
    not enabled. *)
Theorem isMultipleEnabledItemEnabled_stored (state : EnableItems.state)
  (itemType scope item : string) :
  plain_walk (multipleEnableItems (enableItems state)) [itemType; scope; item] = true ->
  isMultipleEnabledItemEnabled state itemType scope item
  = Returns (stored_true (multipleEnableItems (enableItems state))
               [itemType; scope; item]).
Proof.
  intros Hplain.
  unfold isMultipleEnabledItemEnabled. rewrite get_no_default. unfold baseGet.
  apply baseGet_loop_plain; [discriminate | exact Hplain].
Qed.

Lemma isMultipleEnabledItemEnabled_stored_witness :
  isMultipleEnabledItemEnabled pinned_state "pinnedItems" "core/edit-post" "plugin-a"
  = Returns true
  /\ isMultipleEnabledItemEnabled pinned_state "pinnedItems" "core/edit-post" "plugin-b"
     = Returns false
  /\ isMultipleEnabledItemEnabled pinned_state "pinnedItems" "core/edit-post" "toString"
     = Returns false
  /\ isMultipleEnabledItemEnabled pinned_state "pinnedItems" "core/edit-site" "plugin-a"
     = Returns false.
Proof.
  split; [|split; [|split]].
  - apply (isMultipleEnabledItemEnabled_stored pinned_state
             "pinnedItems" "core/edit-post" "plugin-a"). reflexivity.
  - apply (isMultipleEnabledItemEnabled_stored pinned_state
             "pinnedItems" "core/edit-post" "plugin-b"). reflexivity.
  - apply (isMultipleEnabledItemEnabled_stored pinned_state
             "pinnedItems" "core/edit-post" "toString"). reflexivity.
  - apply (isMultipleEnabledItemEnabled_stored pinned_state
             "pinnedItems" "core/edit-site" "plugin-a"). reflexivity.
Defined.

(** Case analysis on every test a lookup makes. *)
Ltac lookup_cases :=
  repeat (cbn [baseGet_loop member];
          first
            [ match goal with
              | |- context [match ?e with _ => _ end] => is_var e; destruct e
              end
            | match goal with
              | |- context [own_prop ?k ?o] => destruct (own_prop k o) eqn:?
              end
            | match goal with
              | |- context [mem ?k ?l] => destruct (mem k l) eqn:?
              end
            | match goal with
              | |- context [String.eqb ?a ?b] => destruct (String.eqb a b) eqn:?
              end ]).

(** X9.  For a state whose [multipleEnableItems] is a plain object that
    holds under [pinnedItems] nothing, [null], [undefined] or a plain
    object, [isItemPinned] throws exactly when [pinnedItems] is an object
    without an own entry for the scope, the scope names a function of
    [Object.prototype], and the item is [caller] or [arguments]. *)
Theorem isItemPinned_throws_iff (state : EnableItems.state) (top : obj)
  (scope item : string) :
  multipleEnableItems (enableItems state) = VObj top ->
  (forall x, own_prop "pinnedItems" top = Some x -> is_plain x = true) ->
  (isItemPinned state scope item = Throws
   <-> exists scopes,
         own_prop "pinnedItems" top = Some (VObj scopes)
         /\ own_prop scope scopes = None
         /\ mem scope object_methods = true
         /\ mem item restricted = true).
Proof.
  intros Hmei Hplain.
  destruct (own_prop "pinnedItems" top) as [x|] eqn:Hpinned.
  - specialize (Hplain x eq_refl).
    destruct x as [| |b|n|s|scopes|p]; try discriminate Hplain.
    1,2: (unfold isItemPinned, isMultipleEnabledItemEnabled;
          rewrite get_no_default, Hmei; unfold baseGet;
          rewrite baseGet_loop_object, (member_own _ _ _ Hpinned);
          split; [discriminate | intros (scopes & [=] & _)]).
    rewrite (isItemPinned_scopes state top scopes scope item Hmei Hpinned).
    destruct (own_prop scope scopes) as [V|] eqn:Hs.
    + split; [discriminate | intros (scopes' & [= <-] & Hnone & _); congruence].
    + destruct (mem scope object_methods), (mem item restricted); cbn [andb].
      * split; [intros _; exists scopes; auto | reflexivity].
      * split; [discriminate | intros (_ & _ & _ & _ & [=])].
      * split; [discriminate | intros (_ & _ & _ & [=] & _)].
      * split; [discriminate | intros (_ & _ & _ & [=] & _)].
  - rewrite (isItemPinned_no_pinnedItems state top scope item Hmei Hpinned).
    split; [discriminate | intros (scopes & [=] & _)].
Qed.

Lemma isItemPinned_throws_iff_witness :
  isItemPinned pinned_state "hasOwnProperty" "arguments" = Throws.
Proof.
  apply (proj2 (isItemPinned_throws_iff pinned_state
                  [("pinnedItems",
                    VObj [("core/edit-post",
                           VObj [("plugin-a", VBool true); ("plugin-b", VNum 1)])])]
                  "hasOwnProperty" "arguments" eq_refl
                  ltac:(intros x [= <-]; reflexivity))).
  exists [("core/edit-post", VObj [("plugin-a", VBool true); ("plugin-b", VNum 1)])].
  split; [reflexivity|]. split; [reflexivity|]. split; reflexivity.
Defined.

(** X10.  Where [singleEnableItems] is an object, [getActiveComplementaryArea]
    never throws, whatever the object holds and whatever the scope.  It
    returns [null] when no complementary area is recorded at all; where the
    areas are recorded in an object, it returns what is stored for the
    scope ([null] for a stored [undefined]), and for a scope without an
    entry [null], unless the scope names a member of [Object.prototype],
    which is then what it returns. *)
Theorem getActiveComplementaryArea_reads (state : EnableItems.state) (top : obj)
  (scope : string) :
  singleEnableItems (enableItems state) = VObj top ->
  getActiveComplementaryArea state scope <> Throws
  /\ (own_prop "complementaryArea" top = None ->
      getActiveComplementaryArea state scope = Returns (Value VNull))
  /\ (forall scopes,
         own_prop "complementaryArea" top = Some (VObj scopes) ->
         (forall v, own_prop scope scopes = Some v ->
                    getActiveComplementaryArea state scope
                    = Returns (Value (match v with VUndefined => VNull | _ => v end)))
         /\ (own_prop scope scopes = None ->
             getActiveComplementaryArea state scope
             = Returns (if mem scope object_methods then Method
                        else if scope =? "__proto__" then ObjectPrototype
                        else Value VNull))).
Proof.
  intros Hsingle.
  unfold getActiveComplementaryArea, getSingleEnableItem, get, baseGet.
  rewrite Hsingle. split; [|rewrite baseGet_loop_object; split].
  - cbn [baseGet_loop member].
    destruct (own_prop "complementaryArea" top) as [areas|].
    + destruct areas; lookup_cases; discriminate.
    + change (mem "complementaryArea" object_methods) with false.
      change ("complementaryArea" =? "__proto__") with false.
      cbn [baseGet_loop]. discriminate.
  - intros Hnone. rewrite (member_inherited _ _ Hnone). reflexivity.
  - intros scopes Hareas. rewrite (member_own _ _ _ Hareas), baseGet_loop_object.
    split.
    + intros v Hv. rewrite (member_own _ _ _ Hv). cbn [baseGet_loop].
      now destruct v.
    + intros Hnone. rewrite (member_inherited _ _ Hnone).
      destruct (mem scope object_methods); [reflexivity|].
      destruct (scope =? "__proto__"); reflexivity.
Qed.

Lemma getActiveComplementaryArea_reads_witness :
  getActiveComplementaryArea area_state "core/edit-post" = Returns (Value (VStr "edit-post/block"))
  /\ getActiveComplementaryArea area_state "core/edit-site" = Returns (Value VNull).
Proof.
  destruct (getActiveComplementaryArea_reads area_state
              [("complementaryArea", VObj [("core/edit-post", VStr "edit-post/block")])]
              "core/edit-post" eq_refl) as [_ [_ Hpost]].
  destruct (getActiveComplementaryArea_reads area_state
              [("complementaryArea", VObj [("core/edit-post", VStr "edit-post/block")])]
              "core/edit-site" eq_refl) as [_ [_ Hsite]].
  split.
  - apply (proj1 (Hpost _ eq_refl) (VStr "edit-post/block")). reflexivity.
  - apply (proj2 (Hsite _ eq_refl)). reflexivity.
Defined.

End SelectorsMore.
